(** * gotail: the file follower of gotail.go, embedded and verified

    The development follows the source file top to bottom:
    - the byte-string helpers the follower uses ([strings.TrimRight],
      [bufio.Reader.ReadString]);
    - a small operating-system model (a directory, inodes, the table of
      [os.File] objects, the table of fsnotify watchers);
    - the [Tail] object and its methods [openFile], [watchFile],
      [readLines], [openAndWatch], [NewTail], [Close];
    - the event loop started by [watchFile].

    Goroutines are modelled by explicit scheduling scripts: a list of retry
    rounds for the polling loop of [openAndWatch] (the timer fires when the
    list is exhausted) and a list of inputs for the event loop, which
    handles one input at a time. The channel [Lines] is the list of the
    strings sent on it; the consumer is taken to receive each of them. *)

From Stdlib Require Import ZArith NArith Ascii String Lia.
From stdpp Require Import base list gmap strings.

Local Open Scope nat_scope.

(** ** Byte strings *)

(** Go strings are byte sequences. *)
Abbreviation bytes := (list ascii).

Definition nl : ascii := "010"%char.
Definition cr : ascii := "013"%char.

(** A string literal as bytes. *)
Definition B (s : string) : bytes := list_ascii_of_string s.

(** [cut delim s] splits [s] after the first [delim]: the first part ends
    with the delimiter. [None] when [s] holds no delimiter. *)
Fixpoint cut (delim : ascii) (s : bytes) : option (bytes * bytes) :=
  match s with
  | [] => None
  | c :: s' =>
      if decide (c = delim) then Some ([c], s')
      else match cut delim s' with
           | Some (l, r) => Some (c :: l, r)
           | None => None
           end
  end.

(** [strings.TrimRight(s, cutset)]: [s] without its trailing bytes that
    belong to [cutset]. *)
Fixpoint TrimRight (s cutset : bytes) : bytes :=
  match s with
  | [] => []
  | c :: s' =>
      match TrimRight s' cutset with
      | [] => if bool_decide (c ∈ cutset) then [] else [c]
      | r => c :: r
      end
  end.

(** ** Errors *)

Inductive error :=
| ENOENT      (* no such file or directory *)
| EMFILE      (* too many open files / inotify instances *)
| ErrClosed   (* os.ErrClosed: use of a closed file *)
| EOF.        (* io.EOF *)

#[global] Instance error_eq_dec : EqDecision error.
Proof. solve_decision. Defined.

(** [os.IsNotExist]. *)
Definition IsNotExist (e : error) : bool :=
  match e with ENOENT => true | _ => false end.

(** ** The operating system seen by one process *)

(** An [os.File]: the inode it was opened on, its offset, and whether
    [Close] was called on it. *)
Record File := mkFile { f_ino : nat; f_off : nat; f_closed : bool }.

(** An [fsnotify.Watcher]. *)
Record Watcher := mkWatcher { w_paths : list string; w_closed : bool }.

Record OS := mkOS {
  dir : gmap string nat;        (* directory: path to inode number *)
  disk : list bytes;            (* inode number to content *)
  files : list File;            (* every os.File the process created *)
  watchers : list Watcher;      (* every watcher the process created *)
  max_files : nat;              (* descriptors the process may hold *)
  max_watchers : nat;           (* inotify instances it may hold *)
  peak_files : nat;             (* history: most files live at once *)
  peak_watchers : nat           (* history: most watchers live at once *)
}.

(** The number of entries of a table that are not closed. *)
Definition live {A : Type} (closed : A → bool) (l : list A) : nat :=
  length (filter (λ x, closed x = false) l).

Definition live_files (fs : list File) : nat := live f_closed fs.

Definition live_watchers (ws : list Watcher) : nat := live w_closed ws.

Definition set_files (fs : list File) (o : OS) : OS :=
  mkOS (dir o) (disk o) fs (watchers o) (max_files o) (max_watchers o)
       (Nat.max (peak_files o) (live_files fs)) (peak_watchers o).

Definition set_watchers (ws : list Watcher) (o : OS) : OS :=
  mkOS (dir o) (disk o) (files o) ws (max_files o) (max_watchers o)
       (peak_files o) (Nat.max (peak_watchers o) (live_watchers ws)).

Definition set_fs (d : gmap string nat) (dk : list bytes) (o : OS) : OS :=
  mkOS d dk (files o) (watchers o) (max_files o) (max_watchers o)
       (peak_files o) (peak_watchers o).

(** [os.Open(name)]: a new [os.File] at offset 0. *)
Definition os_Open (name : string) (o : OS) : (nat + error) * OS :=
  if decide (max_files o ≤ live_files (files o)) then (inr EMFILE, o)
  else match dir o !! name with
       | None => (inr ENOENT, o)
       | Some i =>
           (inl (length (files o)),
            set_files (files o ++ [mkFile i 0 false]) o)
       end.

(** [f.Close()]; the error of closing twice is ignored by every caller. *)
Definition os_Close (h : nat) (o : OS) : OS :=
  match files o !! h with
  | Some f => set_files (<[h := mkFile (f_ino f) (f_off f) true]> (files o)) o
  | None => o
  end.

Definition content (i : nat) (o : OS) : bytes := default [] (disk o !! i).

(** [f.Seek(offset, whence)] for a non-negative offset; whence 0 is the
    start of the file, 1 the current offset, 2 the end. *)
Definition os_Seek (h : nat) (offset whence : nat) (o : OS)
  : option error * OS :=
  match files o !! h with
  | Some f =>
      if f_closed f then (Some ErrClosed, o)
      else
        let base := match whence with
                    | 0 => 0
                    | 1 => f_off f
                    | _ => length (content (f_ino f) o)
                    end in
        (None,
         set_files (<[h := mkFile (f_ino f) (base + offset) false]> (files o)) o)
  | None => (Some ErrClosed, o)
  end.

(** Reading a file until [Read] fails: the bytes obtained and the error
    that ended the reads ([EOF] at the end of an open file). *)
Definition os_Read (h : nat) (o : OS) : bytes * error * OS :=
  match files o !! h with
  | Some f =>
      if f_closed f then ([], ErrClosed, o)
      else
        let data := drop (f_off f) (content (f_ino f) o) in
        (data, EOF,
         set_files
           (<[h := mkFile (f_ino f) (f_off f + length data) false]> (files o)) o)
  | None => ([], ErrClosed, o)
  end.

(** [fsnotify.NewWatcher()]. *)
Definition NewWatcher (o : OS) : (nat + error) * OS :=
  if decide (max_watchers o ≤ live_watchers (watchers o)) then (inr EMFILE, o)
  else (inl (length (watchers o)),
        set_watchers (watchers o ++ [mkWatcher [] false]) o).

(** [w.Close()]. *)
Definition Watcher_Close (w : nat) (o : OS) : OS :=
  match watchers o !! w with
  | Some x => set_watchers (<[w := mkWatcher (w_paths x) true]> (watchers o)) o
  | None => o
  end.

(** [w.Add(name)]: the path must exist. *)
Definition Watcher_Add (w : nat) (name : string) (o : OS)
  : option error * OS :=
  match watchers o !! w with
  | Some x =>
      if w_closed x then (Some ErrClosed, o)
      else match dir o !! name with
           | None => (Some ENOENT, o)
           | Some _ =>
               (None,
                set_watchers
                  (<[w := mkWatcher (name :: w_paths x) false]> (watchers o)) o)
           end
  | None => (Some ErrClosed, o)
  end.

(** ** What other processes do to the file system *)

Inductive EnvOp :=
| FsCreate (name : string) (data : bytes)   (* a new file at [name] *)
| FsAppend (name : string) (data : bytes)   (* O_APPEND write *)
| FsRemove (name : string)
| FsRename (old new : string)
| SetMaxFiles (n : nat)
| SetMaxWatchers (n : nat).

Definition env_step (op : EnvOp) (o : OS) : OS :=
  match op with
  | FsCreate name data =>
      set_fs (<[name := length (disk o)]> (dir o)) (disk o ++ [data]) o
  | FsAppend name data =>
      match dir o !! name with
      | Some i => set_fs (dir o) (<[i := content i o ++ data]> (disk o)) o
      | None => o
      end
  | FsRemove name => set_fs (delete name (dir o)) (disk o) o
  | FsRename old new =>
      match dir o !! old with
      | Some i => set_fs (<[new := i]> (delete old (dir o))) (disk o) o
      | None => o
      end
  | SetMaxFiles n =>
      mkOS (dir o) (disk o) (files o) (watchers o) n (max_watchers o)
           (peak_files o) (peak_watchers o)
  | SetMaxWatchers n =>
      mkOS (dir o) (disk o) (files o) (watchers o) (max_files o) n
           (peak_files o) (peak_watchers o)
  end.

Definition env_steps (ops : list EnvOp) (o : OS) : OS :=
  foldl (λ o' op, env_step op o') o ops.

(** ** bufio.Reader *)

(** The reader of a file: [rd] is the file it reads, [buf] the bytes read
    from it and not yet returned. The buffer is modelled unbounded. *)
Record Reader := mkReader { rd : nat; buf : bytes }.

(** [r.ReadString(delim)]: the bytes up to and including the first [delim].
    When the reads fail before a delimiter is found, everything read is
    returned (and leaves the buffer) together with the error. *)
Definition ReadString (delim : ascii) (r : Reader) (o : OS)
  : bytes * option error * Reader * OS :=
  match cut delim (buf r) with
  | Some (line, rest) => (line, None, mkReader (rd r) rest, o)
  | None =>
      let '(data, e, o') := os_Read (rd r) o in
      match cut delim (buf r ++ data) with
      | Some (line, rest) => (line, None, mkReader (rd r) rest, o')
      | None => (buf r ++ data, Some e, mkReader (rd r) [], o')
      end
  end.

(** ** The Tail object *)

Record Config := mkConfig { Timeout : Z }.

Record Tail := mkTail {
  Lines : list bytes;          (* the strings sent on the channel, in order *)
  reader : option Reader;
  watcher : option nat;
  fname : string;
  file : option nat;
  config : Config
}.

Definition State : Type := Tail * OS.

Definition set_Lines (ls : list bytes) (t : Tail) : Tail :=
  mkTail ls (reader t) (watcher t) (fname t) (file t) (config t).
Definition set_reader (r : option Reader) (t : Tail) : Tail :=
  mkTail (Lines t) r (watcher t) (fname t) (file t) (config t).
Definition set_watcher (w : option nat) (t : Tail) : Tail :=
  mkTail (Lines t) (reader t) w (fname t) (file t) (config t).
Definition set_file (f : option nat) (t : Tail) : Tail :=
  mkTail (Lines t) (reader t) (watcher t) (fname t) f (config t).

(** [readLines]: one [ReadString]; the string is dropped on [io.EOF] and
    sent on [Lines], trimmed, otherwise. *)
Definition readLines (s : State) : State :=
  let '(t, o) := s in
  match reader t with
  | None => s
  | Some r =>
      let '(line, err, r', o') := ReadString nl r o in
      let t' := set_reader (Some r') t in
      if decide (err = Some EOF) then (t', o')
      else (set_Lines (Lines t' ++ [TrimRight line [nl]]) t', o')
  end.

(** [openFile]: closes the file held, opens [fname], seeks to the end unless
    the file is new, and attaches a fresh reader. *)
Definition openFile (newFile : bool) (s : State) : option error * State :=
  let '(t, o) := s in
  let o1 := match file t with Some h => os_Close h o | None => o end in
  match os_Open (fname t) o1 with
  | (inr e, o2) => (Some e, (set_file None t, o2))
  | (inl h, o2) =>
      let t2 := set_file (Some h) t in
      let '(err, o3) :=
        if negb newFile then os_Seek h 0 2 o2 else (None, o2) in
      match err with
      | Some e => (Some e, (t2, o3))
      | None => (None, (set_reader (Some (mkReader h [])) t2, o3))
      end
  end.

(** [watchFile]: closes the watcher held, creates a new one on [fname] and
    starts the event goroutine, whose first action (one [readLines] when
    the file is new) is taken at once. *)
Definition watchFile (newFile : bool) (s : State) : option error * State :=
  let '(t, o) := s in
  let o1 := match watcher t with Some w => Watcher_Close w o | None => o end in
  match NewWatcher o1 with
  | (inr e, o2) => (Some e, (set_watcher None t, o2))
  | (inl w, o2) =>
      let t2 := set_watcher (Some w) t in
      match Watcher_Add w (fname t) o2 with
      | (Some e, o3) => (Some e, (t2, o3))
      | (None, o3) => (None, if newFile then readLines (t2, o3) else (t2, o3))
      end
  end.

(** ** openAndWatch *)

(** One iteration of the polling goroutine, as scheduled: what other
    processes do before its [openFile] and before its [watchFile]. *)
Record Round := mkRound { pre_open : list EnvOp; pre_watch : list EnvOp }.

(** What an iteration did: the flag it passed, the result of [openFile],
    the offset of the file just opened, the result of [watchFile]. *)
Record Attempt := mkAttempt {
  a_newFile : bool;
  a_open : option error;
  a_offset : option nat;
  a_watch : option (option error)
}.

(** The value received from the [timeout] channel and its sender;
    [Pending] when nothing was sent within the rounds given. *)
Inductive Signal :=
| ByLoop (e : option error)
| ByTimer (e : option error)
| Pending.

Record LoopResult := mkLoop {
  lr_signal : Signal;
  lr_newFile : bool;
  lr_trace : list Attempt;
  lr_state : State
}.

Definition cons_attempt (a : Attempt) (L : LoopResult) : LoopResult :=
  mkLoop (lr_signal L) (lr_newFile L) (a :: lr_trace L) (lr_state L).

Definition file_offset (s : State) : option nat :=
  h ← file s.1; f ← files s.2 !! h; Some (f_off f).

(** The polling goroutine against the timer goroutine. [rounds] are the
    iterations that complete before the timer fires; the timer exists only
    when [Timeout] is not 0 and sends the shared [err] as it is then.
    Schedules in which the timer fires inside an iteration (when [err] can
    be nil after a successful [openFile]) and the iterations the goroutine
    goes on running after the timer has fired are not represented: what is
    proved of a value sent by the timer holds for a timer that fires
    between iterations. *)
Fixpoint pollLoop (rounds : list Round) (newFile : bool) (err : option error)
  (s : State) : LoopResult :=
  match rounds with
  | [] =>
      mkLoop (if decide (Timeout (config s.1) = 0%Z) then Pending
              else ByTimer err) newFile [] s
  | r :: rounds' =>
      let '(err1, s1) := openFile newFile (s.1, env_steps (pre_open r) s.2) in
      match err1 with
      | Some e =>
          let newFile' :=
            if IsNotExist e && bool_decide (newFile = false) then true
            else newFile in
          let a := mkAttempt newFile (Some e) None None in
          if decide (Timeout (config s1.1) = 0%Z)
          then mkLoop (ByLoop (Some e)) newFile' [a] s1
          else cons_attempt a (pollLoop rounds' newFile' (Some e) s1)
      | None =>
          let '(err2, s3) :=
            watchFile newFile (s1.1, env_steps (pre_watch r) s1.2) in
          let a := mkAttempt newFile None (file_offset s1) (Some err2) in
          match err2 with
          | None => mkLoop (ByLoop None) newFile [a] s3
          | Some e => cons_attempt a (pollLoop rounds' newFile (Some e) s3)
          end
      end
  end.

Definition openAndWatch (rounds : list Round) (s : State) : LoopResult :=
  pollLoop rounds false None s.

(** What [openAndWatch] returns, if it returns. *)
Definition returned (g : Signal) : option (option error) :=
  match g with
  | ByLoop e | ByTimer e => Some e
  | Pending => None
  end.

(** ** NewTail and Close *)

Inductive Created :=
| Tailing (s : State)                 (* (tail, nil) *)
| Failed (e : error) (s : State)      (* (nil, err) *)
| Waiting (s : State).                (* the call has not returned *)

Definition NewTail (fname : string) (config : Config) (rounds : list Round)
  (o : OS) : Created :=
  let tail := mkTail [] None None fname None config in
  let L := openAndWatch rounds (tail, o) in
  match returned (lr_signal L) with
  | Some None => Tailing (lr_state L)
  | Some (Some e) => Failed e (lr_state L)
  | None => Waiting (lr_state L)
  end.

Definition Close (s : State) : State :=
  let '(t, o) := s in
  let o1 := match file t with Some h => os_Close h o | None => o end in
  (t, match watcher t with Some w => Watcher_Close w o1 | None => o1 end).

(** ** The event goroutine *)

Module fsnotify.

(** The bits of [fsnotify.Op]. *)
Definition Create : N := 1.
Definition Write : N := 2.
Definition Remove : N := 4.
Definition Rename : N := 8.
Definition Chmod : N := 16.

Record Event := mkEvent { Name : string; Op : N }.

End fsnotify.

Inductive Input :=
| Env (op : EnvOp)                                  (* another process acts *)
| Evt (evt : fsnotify.Event) (rounds : list Round)  (* from watcher.Events *)
| WatchErr (e : option error)                       (* from watcher.Errors *)
| Closing.                                          (* the consumer calls Close *)

Inductive Outcome :=
| Running (s : State)
| Fatal (e : error) (s : State)    (* log.Fatalln: the process has exited *)
| Blocked (s : State)              (* inside an openAndWatch that has not returned *)
| Stopped (s : State).             (* channels closed, goroutine finished *)

Definition disruptive (evt : fsnotify.Event) : bool :=
  negb (N.land (fsnotify.Op evt)
          (N.lor fsnotify.Create (N.lor fsnotify.Rename fsnotify.Remove)) =? 0)%N.

Definition is_write (evt : fsnotify.Event) : bool :=
  (N.land (fsnotify.Op evt) fsnotify.Write =? fsnotify.Write)%N.

(** The body of the [case evt, ok := <-t.watcher.Events] branch; [rounds]
    schedules the nested [openAndWatch]. *)
Definition onEvent (evt : fsnotify.Event) (rounds : list Round) (s : State)
  : Outcome :=
  let reopened :=
    if disruptive evt then
      let L := openAndWatch rounds s in
      match returned (lr_signal L) with
      | Some (Some e) => Fatal e (lr_state L)
      | Some None => Running (lr_state L)
      | None => Blocked (lr_state L)
      end
    else Running s in
  match reopened with
  | Running s' => Running (if is_write evt then readLines s' else s')
  | out => out
  end.

(** The event goroutine, one input at a time. The goroutines started by
    earlier calls of [watchFile], which go on receiving from the watcher
    now held, are not represented here; [openFile_close] and
    [openFile_open] below give the steps that two of them interleave. *)
Fixpoint watchLoop (script : list Input) (s : State) : Outcome :=
  match script with
  | [] => Running s
  | Env op :: k => watchLoop k (s.1, env_step op s.2)
  | Evt evt rounds :: k =>
      match onEvent evt rounds s with
      | Running s' => watchLoop k s'
      | out => out
      end
  | WatchErr _ :: k => watchLoop k s
  | Closing :: _ => Stopped (Close s)
  end.

Definition state_of (out : Outcome) : State :=
  match out with
  | Running s | Fatal _ s | Blocked s | Stopped s => s
  end.

(** Following a path from process start: [NewTail], then the event loop. *)
Definition follow (fname : string) (config : Config) (rounds : list Round)
  (script : list Input) (o : OS) : Outcome :=
  match NewTail fname config rounds o with
  | Tailing s => watchLoop script s
  | Failed e s => Stopped s
  | Waiting s => Blocked s
  end.

(** A process that holds nothing yet, next to a file system. *)
Definition boot (d : gmap string nat) (dk : list bytes) (nf nw : nat) : OS :=
  mkOS d dk [] [] nf nw 0 0.

Definition quiet : Round := mkRound [] [].
Definition write_event (name : string) : Input :=
  Evt (fsnotify.mkEvent name fsnotify.Write) [].

(** ** Notions used by the properties *)

(** The follower reads inode [i] through the open file [h], which has not
    been moved past the end of the inode. *)
Definition Reading (h i : nat) (s : State) : Prop :=
  ∃ b n, reader s.1 = Some (mkReader h b)
       ∧ files s.2 !! h = Some (mkFile i n false)
       ∧ n ≤ length (content i s.2).

(** The bytes the reader has not returned yet: its buffer, then the file
    from its offset on. *)
Definition unread (s : State) : bytes :=
  match reader s.1 with
  | Some r =>
      buf r ++ match files s.2 !! rd r with
               | Some f => drop (f_off f) (content (f_ino f) s.2)
               | None => []
               end
  | None => []
  end.

(** [Delivered ls s]: the lines [ls] occur in the byte stream [s] one after
    the other, each closed by a newline of the stream and holding none;
    between the end of one and the start of the next the stream holds no
    newline, so no line of the stream is passed over or sent twice. *)
Inductive Delivered : list bytes → bytes → Prop :=
| Delivered_nil s : Delivered [] s
| Delivered_cons pre l ls s :
    nl ∉ pre → nl ∉ l → Delivered ls s →
    Delivered (l :: ls) (pre ++ l ++ nl :: s).

(** Inputs of the event loop that leave the file and the watcher held in
    place. *)
Definition calm (x : Input) : bool :=
  match x with
  | Evt evt _ => negb (disruptive evt)
  | Closing => false
  | _ => true
  end.

(** No string sent on [Lines] holds a newline. *)
Definition Stripped (s : State) : Prop := Forall (λ l, nl ∉ l) (Lines s.1).

(** What only other processes change: the file system and the limits. *)
Definition fs_of (o : OS) : gmap string nat * list bytes * nat * nat :=
  (dir o, disk o, max_files o, max_watchers o).

(** The reader's buffer: the partial line kept for later. *)
Definition retained (s : State) : bytes :=
  match reader s.1 with Some r => buf r | None => [] end.

(** The bytes handed out by the file held since it was opened at offset
    [start]. *)
Definition bytes_read (start : nat) (s : State) : bytes :=
  match file s.1 ≫= (λ h, files s.2 !! h) with
  | Some f => take (f_off f - start) (drop start (content (f_ino f) s.2))
  | None => []
  end.

(** The bytes of a sequence of lines, each with its newline. *)
Definition lines_bytes (ls : list bytes) : bytes :=
  flat_map (λ l, l ++ [nl]) ls.

(** The bytes accounted for: the lines sent, with the newline that closed
    each, then the partial line retained. *)
Definition accounted (s : State) : bytes :=
  lines_bytes (Lines s.1) ++ retained s.

(** A byte string made of whole lines. *)
Definition whole (x : bytes) : Prop :=
  ∃ ls, Forall (λ l, nl ∉ l) ls ∧ x = lines_bytes ls.

(** The bytes an action of another process writes. *)
Definition written (op : EnvOp) : bytes :=
  match op with
  | FsCreate _ data | FsAppend _ data => data
  | _ => []
  end.

(** Inputs in which other processes write whole lines only. *)
Definition tidy (x : Input) : Prop :=
  match x with
  | Env op => whole (written op)
  | _ => True
  end.

(** [sole closed l held]: no entry of the table [l] is live but the one
    at index [held], if any. *)
Definition sole {A : Type} (closed : A → bool) (l : list A)
  (held : option nat) : Prop :=
  ∀ h x, l !! h = Some x → closed x = false → held = Some h.

(** In the process, only the file [hf] and the watcher [hw] are live, and
    at no earlier moment were two files or two watchers live. *)
Definition HeldAt (o : OS) (hf hw : option nat) : Prop :=
  peak_files o ≤ 1 ∧ peak_watchers o ≤ 1
  ∧ sole f_closed (files o) hf ∧ sole w_closed (watchers o) hw.

(** The file and the watcher of the Tail are the only ones live. *)
Definition Held (s : State) : Prop := HeldAt s.2 (file s.1) (watcher s.1).

(** Every entry of a table that existed in [before] is closed in [after]. *)
Definition earlier_closed {A : Type} (closed : A → bool)
  (before after : list A) : Prop :=
  Forall (λ x, closed x = true) (take (length before) after).

(** [openAndWatch] returned an error. *)
Definition gives_up (L : LoopResult) : Prop :=
  ∃ e, returned (lr_signal L) = Some (Some e).

(** The process was not ended by the follower. *)
Definition survives (out : Outcome) : Prop :=
  match out with Fatal _ _ => False | _ => True end.

(** ** Notions used by the further properties *)

(** The Tail holds an open file, read through its reader, and a live
    watcher that watches its path. *)
Definition Watching (s : State) : Prop :=
  ∃ h i w x, file s.1 = Some h ∧ Reading h i s
    ∧ watcher s.1 = Some w ∧ watchers s.2 !! w = Some x
    ∧ w_closed x = false ∧ fname s.1 ∈ w_paths x.

(** The Tail holds a file that is open. *)
Definition FileOpen (s : State) : Prop :=
  ∃ h f, file s.1 = Some h ∧ files s.2 !! h = Some f ∧ f_closed f = false.

(** The whole lines of a byte string: its segments closed by a newline,
    without the newline. [cur] holds the line being read. *)
Fixpoint lines_from (cur s : bytes) : list bytes :=
  match s with
  | [] => []
  | c :: s' =>
      if decide (c = nl) then cur :: lines_from [] s'
      else lines_from (cur ++ [c]) s'
  end.

Definition file_lines (s : bytes) : list bytes := lines_from [] s.

(** [openFile] in the two steps between which another goroutine can run:
    closing the file held (its first statement), then the rest. *)
Definition openFile_close (s : State) : State :=
  let '(t, o) := s in
  (t, match file t with Some h => os_Close h o | None => o end).

Definition openFile_open (newFile : bool) (s : State) : option error * State :=
  let '(t, o1) := s in
  match os_Open (fname t) o1 with
  | (inr e, o2) => (Some e, (set_file None t, o2))
  | (inl h, o2) =>
      let t2 := set_file (Some h) t in
      let '(err, o3) :=
        if negb newFile then os_Seek h 0 2 o2 else (None, o2) in
      match err with
      | Some e => (Some e, (t2, o3))
      | None => (None, (set_reader (Some (mkReader h [])) t2, o3))
      end
  end.

(** [watchFile] likewise: closing the watcher held, then the rest. *)
Definition watchFile_close (s : State) : State :=
  let '(t, o) := s in
  (t, match watcher t with Some w => Watcher_Close w o | None => o end).

Definition watchFile_new (newFile : bool) (s : State) : option error * State :=
  let '(t, o1) := s in
  match NewWatcher o1 with
  | (inr e, o2) => (Some e, (set_watcher None t, o2))
  | (inl w, o2) =>
      let t2 := set_watcher (Some w) t in
      match Watcher_Add w (fname t) o2 with
      | (Some e, o3) => (Some e, (t2, o3))
      | (None, o3) => (None, if newFile then readLines (t2, o3) else (t2, o3))
      end
  end.

(** The inputs that are events with the Write bit. *)
Definition is_write_input (x : Input) : bool :=
  match x with
  | Evt evt _ => is_write evt
  | _ => false
  end.

Definition write_count (script : list Input) : nat :=
  length (filter (λ x, is_write_input x = true) script).

(** Rounds and inputs in which no other process acts. *)
Definition silent_round (r : Round) : Prop :=
  pre_open r = [] ∧ pre_watch r = [].

Definition silent (x : Input) : Prop :=
  match x with
  | Env _ => False
  | Evt _ rounds => Forall silent_round rounds
  | _ => True
  end.

(** A round before which another process creates the file. *)
Definition appears (name : string) (c : bytes) : Round :=
  mkRound [FsCreate name c] [].

(** ** Concrete file systems *)

Definition test_log : string := "test.log".

(** No file at the path. *)
Definition no_file : OS := boot ∅ [] 8 8.

(** One file at the path, holding [c]. *)
Definition one_file (c : bytes) : OS := boot {[ test_log := 0 ]} [c] 8 8.

(** A Tail just allocated by [NewTail]. *)
Definition fresh_tail (name : string) (timeout : Z) : Tail :=
  mkTail [] None None name None (mkConfig timeout).

(** A line of text with its newline. *)
Definition line_of (s : string) : bytes := B s ++ [nl].

(** The path exists but no inotify instance is available. *)
Definition no_inotify : OS := boot {[ test_log := 0 ]} [[]] 8 0.

(** A file followed from its end receives a line closed by CR LF. *)
Definition crlf_state : State :=
  state_of (follow test_log (mkConfig 10) [quiet]
              [Env (FsAppend test_log (B "ab" ++ [cr; nl]))] (one_file [])).

(** A line written in two appends, with a Write event after each. *)
Definition line_in_two_writes : Outcome :=
  follow test_log (mkConfig 10) [quiet]
    [Env (FsAppend test_log (B "foo")); write_event test_log;
     Env (FsAppend test_log (line_of "bar")); write_event test_log]
    (one_file []).

(** Two lines written by one append, followed by one Write event. *)
Definition two_lines_one_event : Outcome :=
  follow test_log (mkConfig 10) [quiet]
    [Env (FsAppend test_log (line_of "a" ++ line_of "b"));
     write_event test_log]
    (one_file []).

(** The path does not exist at the first attempt; before the second, a
    file holding two lines is created there. *)
Definition created_with_two_lines : list Round :=
  [quiet; mkRound [FsCreate test_log (line_of "a" ++ line_of "b")] []].

(** A file followed without timeout is removed. *)
Definition removed_state : State :=
  state_of (follow test_log (mkConfig 0) [quiet]
              [Env (FsRemove test_log)] (one_file [])).

Definition remove_event : fsnotify.Event :=
  fsnotify.mkEvent test_log fsnotify.Remove.

(** A file followed with a timeout of ten seconds is renamed away. *)
Definition renamed_state : State :=
  state_of (follow test_log (mkConfig 10) [quiet]
              [Env (FsRename test_log "test.log_new")]
              (one_file (line_of "old"))).

Definition rename_event : fsnotify.Event :=
  fsnotify.mkEvent test_log fsnotify.Rename.

(** A file followed is replaced by a new file at the same path. *)
Definition replaced_state : State :=
  state_of (follow test_log (mkConfig 10) [quiet]
              [Env (FsCreate test_log (line_of "new"))]
              (one_file (line_of "old"))).

Definition create_event : fsnotify.Event :=
  fsnotify.mkEvent test_log fsnotify.Create.

(** The file followed has been replaced once and the Create event handled:
    the follower has re-opened, so the goroutine that handled the event
    and the one started by the re-open both receive from the watcher now
    held. The path is then replaced again. *)
Definition twice_replaced_state : State :=
  state_of (follow test_log (mkConfig 10) [quiet]
              [Env (FsCreate test_log (line_of "new"));
               Evt create_event [quiet];
               Env (FsCreate test_log (line_of "newer"))]
              (one_file (line_of "old"))).

(** * The repository's tests, replayed *)

(* TestAppendFile *)
Example TestAppendFile :
  option_map (λ s, Lines s.1)
    (match follow test_log (mkConfig 10) [quiet]
             [Env (FsAppend test_log (B "foobar" ++ [nl])); write_event test_log]
             (boot {[ test_log := 0 ]} [[]] 8 8) with
     | Running s => Some s | _ => None end)
  = Some [B "foobar"].
Proof. vm_compute. reflexivity. Qed.

(* TestWriteNewFile: the file appears while NewTail is polling. *)
Example TestWriteNewFile :
  match follow test_log (mkConfig 10)
          [quiet; mkRound [FsCreate test_log []] []]
          [Env (FsAppend test_log (B "foobar" ++ [nl])); write_event test_log]
          (boot ∅ [] 8 8) with
  | Running s => Lines s.1 = [B "foobar"]
  | _ => False
  end.
Proof. vm_compute. reflexivity. Qed.

(* TestRenameFile: the file is renamed away, then created with a line. *)
Example TestRenameFile :
  match follow test_log (mkConfig 10)
          [mkRound [FsCreate test_log []; FsRename test_log "test.log_new"] [];
           mkRound [FsCreate test_log (B "foobar" ++ [nl])] []]
          []
          (boot ∅ [] 8 8) with
  | Running s => Lines s.1 = [B "foobar"]
  | _ => False
  end.
Proof. vm_compute. reflexivity. Qed.

(* TestNoFile *)
Example TestNoFile :
  match NewTail test_log (mkConfig 0) [quiet; quiet] (boot ∅ [] 8 8) with
  | Failed e _ => IsNotExist e = true
  | _ => False
  end.
Proof. vm_compute. reflexivity. Qed.

(** * Properties *)

(** ** Byte strings *)

Lemma cut_Some d s l r :
  cut d s = Some (l, r) → ∃ l', l = l' ++ [d] ∧ (d ∉ l') ∧ s = l ++ r.
Proof.
  revert l r. induction s as [|c s IH]; intros l r H; simpl in H; [done|].
  destruct (decide (c = d)) as [->|Hne].
  - injection H as <- <-. exists []. split_and!; [done|apply not_elem_of_nil|done].
  - destruct (cut d s) as [[l0 r0]|] eqn:E; [|done].
    injection H as <- <-.
    destruct (IH _ _ eq_refl) as (l' & -> & Hl' & ->).
    exists (c :: l'). split_and!; [done| |done].
    rewrite not_elem_of_cons. split; [congruence|done].
Qed.

Lemma cut_None d s : cut d s = None ↔ d ∉ s.
Proof.
  induction s as [|c s IH]; simpl.
  - split; [intros _; apply not_elem_of_nil|done].
  - rewrite not_elem_of_cons. destruct (decide (c = d)) as [->|Hne].
    + split; [done|intros [? _]; done].
    + destruct (cut d s) as [[l0 r0]|].
      * split; [done|]. intros [_ H]. apply IH in H. done.
      * split; [|done]. intros _. split; [congruence|]. by apply IH.
Qed.

Lemma cut_line d l r : d ∉ l → cut d (l ++ d :: r) = Some (l ++ [d], r).
Proof.
  induction l as [|c l IH]; intros H; simpl.
  - by rewrite decide_True.
  - apply not_elem_of_cons in H as [Hne Hl].
    rewrite decide_False by congruence. by rewrite IH.
Qed.

Lemma cut_app_Some d a b l r :
  cut d a = Some (l, r) → cut d (a ++ b) = Some (l, r ++ b).
Proof.
  intros H. apply cut_Some in H as (l' & -> & Hl' & ->).
  rewrite <- !app_assoc. simpl. by rewrite cut_line.
Qed.

Lemma TrimRight_keeps s cutset :
  (∀ c, c ∈ cutset → c ∉ s) → TrimRight s cutset = s.
Proof.
  induction s as [|c s IH]; intros H; simpl; [done|].
  rewrite IH.
  - destruct s; [|done].
    rewrite bool_decide_eq_false_2; [done|].
    intros Hc. apply (H c Hc). left.
  - intros c' Hc' Hin. apply (H c' Hc'). by right.
Qed.

Lemma TrimRight_line l : nl ∉ l → TrimRight (l ++ [nl]) [nl] = l.
Proof.
  induction l as [|c l IH]; intros H; simpl; [done|].
  apply not_elem_of_cons in H as [Hne Hl]. rewrite IH by done.
    destruct l; [|done].
    rewrite bool_decide_eq_false_2; [done|].
    rewrite list_elem_of_singleton. congruence.
Qed.

(** ** Reading through an open file *)



Lemma content_set_files i fs o : content i (set_files fs o) = content i o.
Proof. done. Qed.

Lemma drop_rest (c : bytes) n :
  n ≤ length c → drop (n + length (drop n c)) c = [].
Proof. intros H. apply drop_ge. rewrite length_drop. lia. Qed.

(** What one [readLines] does, in terms of the unread bytes. *)
Lemma readLines_spec h i s :
  Reading h i s →
  Reading h i (readLines s)
  ∧ disk (readLines s).2 = disk s.2
  ∧ match cut nl (unread s) with
    | Some (line, rest) =>
        Lines (readLines s).1 = Lines s.1 ++ [TrimRight line [nl]]
        ∧ unread (readLines s) = rest
    | None =>
        Lines (readLines s).1 = Lines s.1 ∧ unread (readLines s) = []
    end.
Proof.
  destruct s as [t o]. intros (b & n & Hr & Hf & Hn). simpl in *.
  assert (Hh : h < length (files o)) by (by eapply lookup_lt_Some).
  unfold readLines, unread, ReadString. simpl. rewrite Hr. simpl. rewrite Hf. simpl.
  destruct (cut nl b) as [[line rest]|] eqn:Eb.
  - rewrite (cut_app_Some _ _ _ _ _ Eb). simpl. rewrite Hf. simpl.
    split_and!; [|done|done|done].
    exists rest, n. by simpl.
  - unfold os_Read. rewrite Hf. simpl.
    destruct (cut nl (b ++ drop n (content i o))) as [[line rest]|] eqn:E.
    + simpl. rewrite list_lookup_insert_eq by done. simpl.
      rewrite content_set_files, drop_rest by done.
      split_and!; [|done|done|by rewrite app_nil_r].
      exists rest, (n + length (drop n (content i o))). simpl.
      rewrite list_lookup_insert_eq by done. split_and!; [done..|].
      rewrite content_set_files, length_drop. lia.
    + simpl. rewrite list_lookup_insert_eq by done. simpl.
      rewrite content_set_files, drop_rest by done.
      split_and!; [|done|done|done].
      exists [], (n + length (drop n (content i o))). simpl.
      rewrite list_lookup_insert_eq by done. split_and!; [done..|].
      rewrite content_set_files, length_drop. lia.
Qed.

(** A complete line is sent without its newline, and nothing else of it
    is removed. *)
Lemma readLines_line h i s l rest :
  Reading h i s → unread s = l ++ nl :: rest → nl ∉ l →
  Lines (readLines s).1 = Lines s.1 ++ [l] ∧ unread (readLines s) = rest.
Proof.
  intros HR Hu Hl. destruct (readLines_spec h i s HR) as (_ & _ & H).
  rewrite Hu, cut_line in H by done. by rewrite TrimRight_line in H.
Qed.

(** Unread bytes without a newline are taken from the reader and sent
    nowhere. *)
Lemma readLines_partial h i s :
  Reading h i s → nl ∉ unread s →
  Lines (readLines s).1 = Lines s.1 ∧ unread (readLines s) = [].
Proof.
  intros HR Hu. destruct (readLines_spec h i s HR) as (_ & _ & H).
  apply cut_None in Hu. by rewrite Hu in H.
Qed.

Lemma Reading_unread h i s :
  Reading h i s →
  ∃ b n, reader s.1 = Some (mkReader h b)
       ∧ files s.2 !! h = Some (mkFile i n false)
       ∧ n ≤ length (content i s.2)
       ∧ unread s = b ++ drop n (content i s.2).
Proof.
  intros (b & n & Hr & Hf & Hn). exists b, n. split_and!; [done..|].
  unfold unread. rewrite Hr. simpl. by rewrite Hf.
Qed.

(** ** What other processes can do to an inode: extend it *)

Lemma env_step_content i op o :
  ∃ a, content i (env_step op o) = content i o ++ a
     ∧ (a = [] ∨ a = written op).
Proof.
  assert (Hsame : ∀ c : bytes, ∃ a, c = c ++ a ∧ (a = [] ∨ a = written op)).
  { intros c. exists []. split; [by rewrite app_nil_r|by left]. }
  unfold content. destruct op as [name data|name data|name|old new|n|n]; simpl;
    try apply Hsame.
  - destruct (decide (i < length (disk o))) as [Hlt|Hge].
    + rewrite lookup_app_l by done. apply Hsame.
    + rewrite lookup_app_r, (lookup_ge_None_2 (disk o)) by lia.
      destruct (i - length (disk o)) as [|k]; simpl.
      * exists data. split; [done|by right].
      * destruct k; apply (Hsame []).
  - destruct (dir o !! name) as [j|]; simpl; [|apply Hsame].
    destruct (decide (j = i)) as [->|Hne].
    + destruct (decide (i < length (disk o))) as [Hlt|Hge].
      * rewrite list_lookup_insert_eq by done. simpl.
        exists data. split; [done|by right].
      * rewrite list_insert_ge by lia. apply Hsame.
    + rewrite list_lookup_insert_ne by done. apply Hsame.
  - destruct (dir o !! old); simpl; apply Hsame.
Qed.

Lemma env_step_files op o : files (env_step op o) = files o.
Proof.
  destruct op; simpl; try done.
  - by destruct (dir o !! name).
  - by destruct (dir o !! old).
Qed.

Lemma env_step_Reading h i op t o :
  Reading h i (t, o) →
  ∃ a, content i (env_step op o) = content i o ++ a
     ∧ Reading h i (t, env_step op o)
     ∧ unread (t, env_step op o) = unread (t, o) ++ a
     ∧ (a = [] ∨ a = written op).
Proof.
  intros HR. destruct (Reading_unread _ _ _ HR) as (b & n & Hr & Hf & Hn & Hu).
  simpl in *. destruct (env_step_content i op o) as (a & Ha & Hop).
  assert (HR' : Reading h i (t, env_step op o)).
  { exists b, n. simpl. rewrite env_step_files, Ha, length_app.
    split_and!; [done..|lia]. }
  exists a. split_and!; [done..| |done].
  destruct (Reading_unread _ _ _ HR') as (b' & n' & Hr' & Hf' & _ & ->).
  simpl in *. rewrite env_step_files in Hf'.
  assert (b' = b) as -> by congruence. assert (n' = n) as -> by congruence.
  by rewrite Hu, Ha, drop_app_le, app_assoc.
Qed.

(** ** Lines delivered in file order *)


Lemma Delivered_skip d ls s : nl ∉ d → Delivered ls s → Delivered ls (d ++ s).
Proof.
  intros Hd H. destruct H as [s|pre l ls s Hpre Hl H]; [constructor|].
  rewrite app_assoc. constructor; [|done..].
  rewrite not_elem_of_app. done.
Qed.

Lemma Delivered_first l ls s :
  nl ∉ l → Delivered ls s → Delivered (l :: ls) (l ++ nl :: s).
Proof. intros. by apply (Delivered_cons []); [apply not_elem_of_nil|..]. Qed.

Lemma Delivered_no_newline ls s : Delivered ls s → Forall (λ l, nl ∉ l) ls.
Proof. induction 1; by constructor. Qed.


(** While the same file is held, the lines sent are delivered in the order
    of the file, from the bytes that were unread at the start and those
    appended since. *)
Lemma watchLoop_calm h i script : ∀ s,
  Reading h i s → Forall (λ x, calm x = true) script →
  ∃ s' a ls,
    watchLoop script s = Running s'
    ∧ Reading h i s'
    ∧ content i s'.2 = content i s.2 ++ a
    ∧ Lines s'.1 = Lines s.1 ++ ls
    ∧ Delivered ls (unread s ++ a).
Proof.
  induction script as [|x k IH]; intros [t o] HR Hcalm.
  - exists (t, o), [], []. simpl. rewrite !app_nil_r.
    split_and!; [done..|constructor].
  - apply Forall_cons in Hcalm as [Hx Hk].
    destruct x as [op|evt rounds|e|]; simpl in *; [| | |done].
    + destruct (env_step_Reading h i op t o HR) as (a1 & Ha1 & HR1 & Hu1 & _).
      destruct (IH _ HR1 Hk) as (s' & a & ls & Hrun & HR' & Hc & HL & HD).
      exists s', (a1 ++ a), ls. simpl in *.
      rewrite Hu1, <- app_assoc in HD. rewrite Hc, Ha1, app_assoc.
      split_and!; done.
    + unfold onEvent. apply negb_true_iff in Hx. rewrite Hx.
      destruct (is_write evt).
      * destruct (readLines_spec h i _ HR) as (HR1 & Hdisk & Hspec).
        destruct (IH _ HR1 Hk) as (s' & a & ls & Hrun & HR' & Hc & HL & HD).
        assert (Hc' : content i s'.2 = content i o ++ a).
        { rewrite Hc. unfold content. by rewrite Hdisk. }
        destruct (cut nl (unread (t, o))) as [[line rest]|] eqn:E.
        -- destruct Hspec as [HL1 Hu1].
           apply cut_Some in E as (l & -> & Hl & Hu).
           rewrite TrimRight_line in HL1 by done.
           exists s', a, (l :: ls). rewrite Hu1 in HD.
           rewrite HL, HL1, Hu, <- !app_assoc. simpl.
           split_and!; [done..|]. by apply Delivered_first.
        -- destruct Hspec as [HL1 Hu1]. apply cut_None in E.
           exists s', a, ls. rewrite Hu1 in HD. rewrite HL, HL1.
           split_and!; [done..|]. by apply Delivered_skip.
      * destruct (IH _ HR Hk) as (s' & a & ls & Hrun & HR' & Hc & HL & HD).
        exists s', a, ls. done.
    + destruct (IH _ HR Hk) as (s' & a & ls & Hrun & HR' & Hc & HL & HD).
      exists s', a, ls. done.
Qed.

(** ** What the methods leave alone *)

Arguments readLines : simpl never.
Arguments openFile : simpl never.
Arguments watchFile : simpl never.
Arguments fs_of : simpl never.
Arguments onEvent : simpl never.

Ltac unfold_os :=
  unfold os_Open, os_Close, os_Seek, os_Read, NewWatcher, Watcher_Close,
    Watcher_Add, set_files, set_watchers, set_fs in *.

Ltac crush_frame :=
  unfold_os; simpl in *; repeat (case_match; simpl in *; simplify_eq);
  try done.

Lemma os_Close_fs h o : fs_of (os_Close h o) = fs_of o.
Proof. crush_frame. Qed.

Lemma os_Open_fs name o : fs_of (os_Open name o).2 = fs_of o.
Proof. crush_frame. Qed.

Lemma os_Seek_fs h n w o : fs_of (os_Seek h n w o).2 = fs_of o.
Proof. crush_frame. Qed.

Lemma os_Read_fs h o : fs_of (os_Read h o).2 = fs_of o.
Proof. crush_frame. Qed.

Lemma NewWatcher_fs o : fs_of (NewWatcher o).2 = fs_of o.
Proof. crush_frame. Qed.

Lemma Watcher_Close_fs w o : fs_of (Watcher_Close w o) = fs_of o.
Proof. crush_frame. Qed.

Lemma Watcher_Add_fs w name o : fs_of (Watcher_Add w name o).2 = fs_of o.
Proof. crush_frame. Qed.

Lemma readLines_frame s :
  fs_of (readLines s).2 = fs_of s.2
  ∧ watchers (readLines s).2 = watchers s.2
  ∧ fname (readLines s).1 = fname s.1 ∧ config (readLines s).1 = config s.1
  ∧ file (readLines s).1 = file s.1 ∧ watcher (readLines s).1 = watcher s.1.
Proof.
  destruct s as [t o]. unfold readLines, ReadString. crush_frame.
Qed.

Lemma openFile_frame b s :
  fs_of (openFile b s).2.2 = fs_of s.2
  ∧ watchers (openFile b s).2.2 = watchers s.2
  ∧ fname (openFile b s).2.1 = fname s.1
  ∧ config (openFile b s).2.1 = config s.1
  ∧ Lines (openFile b s).2.1 = Lines s.1
  ∧ watcher (openFile b s).2.1 = watcher s.1.
Proof.
  destruct s as [t o]. unfold openFile. destruct b; crush_frame.
Qed.

Lemma watchFile_frame b s :
  fs_of (watchFile b s).2.2 = fs_of s.2
  ∧ fname (watchFile b s).2.1 = fname s.1
  ∧ config (watchFile b s).2.1 = config s.1
  ∧ file (watchFile b s).2.1 = file s.1.
Proof.
  destruct s as [t o]. unfold watchFile.
  set (o1 := match watcher t with Some w => _ | None => _ end).
  assert (H1 : fs_of o1 = fs_of o).
  { subst o1. destruct (watcher t); [apply Watcher_Close_fs|done]. }
  pose proof (NewWatcher_fs o1) as H2.
  destruct (NewWatcher o1) as [[w|e] o2]; simpl in *; [|by rewrite H2].
  pose proof (Watcher_Add_fs w (fname t) o2) as H3.
  destruct (Watcher_Add w (fname t) o2) as [[e|] o3]; simpl in *.
  { by rewrite H3, H2. }
  destruct b; simpl; [|by rewrite H3, H2].
  destruct (readLines_frame (set_watcher (Some w) t, o3))
    as (-> & _ & -> & -> & -> & _).
  simpl. by rewrite H3, H2.
Qed.

Lemma openFile_config b s e s' :
  openFile b s = (e, s') → config s'.1 = config s.1 ∧ Lines s'.1 = Lines s.1.
Proof.
  intros H. pose proof (openFile_frame b s) as (_ & _ & _ & Hc & HL & _).
  rewrite H in Hc, HL. done.
Qed.

Lemma watchFile_config b s e s' :
  watchFile b s = (e, s') → config s'.1 = config s.1.
Proof.
  intros H. pose proof (watchFile_frame b s) as (_ & _ & Hc & _).
  by rewrite H in Hc.
Qed.

Lemma watchFile_failed_Lines b s e s' :
  watchFile b s = (Some e, s') → Lines s'.1 = Lines s.1.
Proof.
  destruct s as [t o]. unfold watchFile.
  destruct (NewWatcher _) as [[w|e1] o2]; simpl.
  - destruct (Watcher_Add _ _ _) as [[e2|] o3]; [|done].
    by intros [= _ <-].
  - by intros [= _ <-].
Qed.

(** ** openFile *)

Lemma os_Close_length h o : length (files (os_Close h o)) = length (files o).
Proof.
  unfold os_Close. destruct (files o !! h); [|done]. simpl. apply length_insert.
Qed.

Lemma content_fs i o o' : fs_of o' = fs_of o → content i o' = content i o.
Proof. unfold fs_of, content. intros [= _ -> _ _]. done. Qed.

Lemma dir_fs o o' : fs_of o' = fs_of o → dir o' = dir o.
Proof. unfold fs_of. by intros [= -> _ _ _]. Qed.

(** A successful [openFile] leaves a fresh reader on a new file of the
    path's inode, at the end of the inode unless the file is new. *)
Lemma openFile_ok b t o s' :
  openFile b (t, o) = (None, s') →
  ∃ i, dir o !! fname t = Some i
     ∧ file s'.1 = Some (length (files o))
     ∧ reader s'.1 = Some (mkReader (length (files o)) [])
     ∧ files s'.2 !! length (files o)
       = Some (mkFile i (if b then 0 else length (content i o)) false).
Proof.
  unfold openFile.
  set (o1 := match file t with Some h => _ | None => _ end).
  assert (Hfs : fs_of o1 = fs_of o).
  { subst o1. destruct (file t); [apply os_Close_fs|done]. }
  assert (Hlen : length (files o1) = length (files o)).
  { subst o1. destruct (file t); [apply os_Close_length|done]. }
  unfold os_Open. case_decide; [done|].
  rewrite (dir_fs _ _ Hfs). destruct (dir o !! fname t) as [i|]; [|done].
  rewrite Hlen. destruct b; simpl.
  - intros [= <-]. exists i. simpl.
    rewrite list_lookup_middle by done. done.
  - unfold os_Seek. simpl. rewrite list_lookup_middle by done. simpl.
    intros [= <-]. exists i. simpl.
    rewrite list_lookup_insert_eq by (rewrite length_app; simpl; lia).
    rewrite Nat.add_0_r. unfold content. simpl.
    apply (f_equal (λ x, x.1.1.2)) in Hfs. simpl in Hfs. rewrite Hfs.
    done.
Qed.

Lemma openFile_Reading b t o s' :
  openFile b (t, o) = (None, s') →
  ∃ i, dir o !! fname t = Some i
     ∧ Reading (length (files o)) i s'
     ∧ unread s' = if b then content i o else [].
Proof.
  intros H. pose proof (openFile_frame b (t, o)) as (Hfs & _).
  rewrite H in Hfs. simpl in Hfs.
  apply openFile_ok in H as (i & Hd & Hf & Hr & Hl).
  exists i. split; [done|].
  assert (HR : Reading (length (files o)) i s').
  { eexists _, _. split_and!; [done..|].
    rewrite (content_fs _ _ _ Hfs). destruct b; lia. }
  split; [done|].
  unfold unread. rewrite Hr. simpl. rewrite Hl. simpl.
  rewrite (content_fs _ _ _ Hfs). destruct b; [done|apply drop_all].
Qed.

(** [NewTail] on a path that exists succeeds at the first attempt and
    leaves the reader at the end of the file. *)
Lemma NewTail_existing name T rest o i :
  dir o !! name = Some i →
  live_files (files o) < max_files o →
  live_watchers (watchers o) < max_watchers o →
  ∃ s, NewTail name (mkConfig T) (quiet :: rest) o = Tailing s
     ∧ Reading (length (files o)) i s
     ∧ unread s = [] ∧ Lines s.1 = [] ∧ fs_of s.2 = fs_of o.
Proof.
  intros Hd Hf Hw. unfold NewTail, openAndWatch. simpl.
  destruct (openFile false _) as [e1 s1] eqn:E1.
  assert (e1 = None) as ->.
  { unfold openFile, os_Open in E1. simpl in E1.
    rewrite decide_False, Hd in E1 by lia. simpl in E1.
    unfold os_Seek in E1. simpl in E1.
    rewrite list_lookup_middle in E1 by done. simpl in E1. congruence. }
  pose proof (openFile_frame false (mkTail [] None None name None (mkConfig T), o))
    as (Hfs1 & Hws1 & Hn1 & _ & HL1 & Hw1).
  rewrite E1 in Hfs1, Hws1, Hn1, HL1, Hw1. simpl in *.
  destruct (openFile_Reading _ _ _ _ E1) as (i' & Hd' & HR1 & Hu1).
  simpl in Hd'. assert (i' = i) as -> by congruence.
  destruct s1 as [t1 o1]. simpl in *.
  unfold watchFile. rewrite Hw1. unfold NewWatcher.
  rewrite decide_False by (rewrite Hws1; unfold fs_of in Hfs1; simplify_eq; lia).
  simpl. unfold Watcher_Add. simpl.
  rewrite list_lookup_middle by done. simpl.
  rewrite Hn1, (dir_fs _ _ Hfs1), Hd. simpl.
  eexists. split; [done|]. by split_and!.
Qed.

(** ** The event loop on a file that is only appended to *)

Lemma onEvent_write name rounds s :
  onEvent (fsnotify.mkEvent name fsnotify.Write) rounds s
  = Running (readLines s).
Proof. done. Qed.

Lemma FsAppend_content name data o i :
  dir o !! name = Some i → i < length (disk o) →
  content i (env_step (FsAppend name data) o) = content i o ++ data.
Proof.
  intros Hd Hi. unfold content. simpl. rewrite Hd. simpl.
  by rewrite list_lookup_insert_eq.
Qed.

(** With nothing unread, Write events send nothing. *)
Lemma watchLoop_idle h i name n : ∀ s,
  Reading h i s → unread s = [] →
  ∃ s', watchLoop (repeat (write_event name) n) s = Running s'
      ∧ Lines s'.1 = Lines s.1.
Proof.
  induction n as [|n IH]; intros s HR Hu; simpl.
  - by exists s.
  - destruct (readLines_spec h i s HR) as (HR1 & _ & Hspec).
    rewrite Hu in Hspec. simpl in Hspec. destruct Hspec as [HL1 Hu1].
    destruct (IH _ HR1 Hu1) as (s' & Hrun & HL). exists s'. by rewrite HL.
Qed.

(** ** When writers append whole lines *)

Lemma whole_nil : whole [].
Proof. exists []. by split. Qed.

Lemma whole_app x y : whole x → whole y → whole (x ++ y).
Proof.
  intros (l1 & H1 & ->) (l2 & H2 & ->). exists (l1 ++ l2).
  split; [by apply Forall_app|]. unfold lines_bytes. by rewrite flat_map_app.
Qed.

(** The first read on whole lines finds a line, unless nothing is left. *)
Lemma whole_cut x :
  whole x →
  match cut nl x with
  | Some (ln, rest) =>
      ∃ l, ln = l ++ [nl] ∧ (nl ∉ l) ∧ whole rest ∧ x = l ++ nl :: rest
  | None => x = []
  end.
Proof.
  intros (ls & Hls & ->). destruct ls as [|l ls]; simpl; [done|].
  apply Forall_cons in Hls as [Hl Hls].
  rewrite <- app_assoc. simpl. rewrite cut_line by done.
  exists l. split_and!; [done..| |done]. by exists ls.
Qed.

(** While the same file is held and whole lines are written to it, the
    bytes taken from the reader are exactly the lines sent, each with its
    newline. *)
Lemma watchLoop_whole h i script : ∀ s,
  Reading h i s → whole (unread s) →
  Forall (λ x, calm x = true) script → Forall tidy script →
  ∃ s' a ls,
    watchLoop script s = Running s'
    ∧ content i s'.2 = content i s.2 ++ a
    ∧ Lines s'.1 = Lines s.1 ++ ls
    ∧ Forall (λ l, nl ∉ l) ls
    ∧ unread s ++ a = lines_bytes ls ++ unread s'.
Proof.
  induction script as [|x k IH]; intros [t o] HR Hw Hcalm Htidy.
  - exists (t, o), [], []. simpl. rewrite !app_nil_r. by split_and!.
  - apply Forall_cons in Hcalm as [Hx Hk]. apply Forall_cons in Htidy as [Tx Tk].
    destruct x as [op|evt rounds|e|]; simpl in *; [| | |done].
    + destruct (env_step_Reading h i op t o HR) as (a1 & Ha1 & HR1 & Hu1 & Hop).
      assert (Hw1 : whole (unread (t, env_step op o))).
      { rewrite Hu1. apply whole_app; [done|].
        destruct Hop as [->| ->]; [apply whole_nil|done]. }
      destruct (IH _ HR1 Hw1 Hk Tk) as (s' & a & ls & Hrun & Hc & HL & Hls & Hacc).
      exists s', (a1 ++ a), ls. simpl in *.
      rewrite Hu1, <- app_assoc in Hacc. rewrite Hc, Ha1, app_assoc.
      by split_and!.
    + unfold onEvent. apply negb_true_iff in Hx. rewrite Hx.
      destruct (is_write evt);
        [|destruct (IH _ HR Hw Hk Tk) as (s' & a & ls & ?); by exists s', a, ls].
      destruct (readLines_spec h i _ HR) as (HR1 & Hdisk & Hspec).
      pose proof (whole_cut _ Hw) as Hcut.
      destruct (cut nl (unread (t, o))) as [[ln rest]|] eqn:E.
      * destruct Hspec as [HL1 Hu1].
        destruct Hcut as (l & -> & Hl & Hrest & Hu).
        rewrite TrimRight_line in HL1 by done. rewrite <- Hu1 in Hrest.
        destruct (IH _ HR1 Hrest Hk Tk)
          as (s' & a & ls & Hrun & Hc & HL & Hls & Hacc).
        exists s', a, (l :: ls). rewrite Hu1 in Hacc.
        rewrite HL, HL1, Hu, Hc, <- !app_assoc. simpl.
        rewrite <- app_assoc. simpl. rewrite <- Hacc.
        split_and!; [done| |done|by constructor|by rewrite <- app_assoc].
        unfold content. simpl. by rewrite Hdisk.
      * destruct Hspec as [HL1 Hu1]. rewrite <- Hu1 in Hcut at 1.
        assert (Hw1 : whole (unread (readLines (t, o))))
          by (rewrite Hu1; apply whole_nil).
        destruct (IH _ HR1 Hw1 Hk Tk)
          as (s' & a & ls & Hrun & Hc & HL & Hls & Hacc).
        exists s', a, ls. rewrite Hu1 in Hacc. rewrite Hcut.
        rewrite HL, HL1, Hc, Hu1. split_and!; [done| |done..].
        unfold content. simpl. by rewrite Hdisk.
    + destruct (IH _ HR Hw Hk Tk) as (s' & a & ls & ?). by exists s', a, ls.
Qed.

(** ** Every string sent is stripped of its newline *)

Lemma Stripped_readLines s : Stripped s → Stripped (readLines s).
Proof.
  destruct s as [t o]. unfold Stripped, readLines. simpl. intros H.
  destruct (reader t) as [r|]; [|done]. unfold ReadString.
  assert (Hcut : ∀ x l rest, cut nl x = Some (l, rest) →
                 Forall (λ l, nl ∉ l) (Lines t ++ [TrimRight l [nl]])).
  { intros x l rest Hx. apply cut_Some in Hx as (l' & -> & Hl' & _).
    rewrite TrimRight_line by done. apply Forall_app. by repeat constructor. }
  destruct (cut nl (buf r)) as [[l rest]|] eqn:E1; simpl; [by eapply Hcut|].
  destruct (os_Read (rd r) o) as [[data e] o'].
  destruct (cut nl (buf r ++ data)) as [[l rest]|] eqn:E2; simpl;
    [by eapply Hcut|].
  destruct (decide _); simpl; [done|].
  apply cut_None in E2. rewrite TrimRight_keeps.
  - apply Forall_app. by repeat constructor.
  - intros c Hc. apply list_elem_of_singleton in Hc as ->. done.
Qed.

Lemma Stripped_watchFile b s : Stripped s → Stripped (watchFile b s).2.
Proof.
  destruct s as [t o]. intros H. unfold watchFile.
  destruct (NewWatcher _) as [[w|e] o2]; simpl; [|done].
  destruct (Watcher_Add _ _ _) as [[e|] o3]; simpl; [done|].
  destruct b; [|done]. by apply Stripped_readLines.
Qed.

Lemma Stripped_pollLoop rounds : ∀ nf err s,
  Stripped s → Stripped (lr_state (pollLoop rounds nf err s)).
Proof.
  induction rounds as [|r rounds IH]; intros nf err [t o] H; cbn [pollLoop].
  - done.
  - destruct (openFile nf _) as [[e1|] [t1 o1]] eqn:E1;
      apply openFile_config in E1 as [_ HL1]; simpl in HL1.
    + assert (Stripped (t1, o1)) by (unfold Stripped; simpl; by rewrite HL1).
      destruct (decide _); simpl; [done|]. by apply IH.
    + assert (H1 : Stripped (t1, env_steps (pre_watch r) o1))
        by (unfold Stripped; simpl; by rewrite HL1).
      apply (Stripped_watchFile nf) in H1.
      destruct (watchFile nf _) as [[e2|] s3]; simpl in *; [|done].
      by apply IH.
Qed.

Lemma Stripped_watchLoop script : ∀ s,
  Stripped s → Stripped (state_of (watchLoop script s)).
Proof.
  induction script as [|x k IH]; intros [t o] H; simpl; [done|].
  destruct x as [op|evt rounds|e|]; [by apply IH| |by apply IH|done].
  assert (H1 : Stripped (state_of (onEvent evt rounds (t, o)))).
  { unfold onEvent. destruct (disruptive evt).
    - pose proof (Stripped_pollLoop rounds false None _ H) as HL.
      unfold openAndWatch.
      destruct (returned _) as [[e|]|]; simpl; [done| |done].
      destruct (is_write evt); [by apply Stripped_readLines|done].
    - simpl. destruct (is_write evt); [by apply Stripped_readLines|done]. }
  destruct (onEvent evt rounds (t, o)); simpl in *; [by apply IH|done..].
Qed.

Lemma Stripped_follow name cfg rounds script o :
  Stripped (state_of (follow name cfg rounds script o)).
Proof.
  unfold follow, NewTail, openAndWatch.
  assert (H0 : Stripped (mkTail [] None None name None cfg, o)) by constructor.
  pose proof (Stripped_pollLoop rounds false None _ H0) as H.
  destruct (returned _) as [[e|]|]; simpl; [done| |done].
  by apply Stripped_watchLoop.
Qed.

(** The appended line, and what holds in general of the strings sent.
    For a file that exists when it is followed with a timeout above 0,
    appending the line foobar makes the follower send exactly one string,
    foobar without the newline, whatever number of Write events follow the
    append. In general, while one file is held, every string sent holds no
    newline, was closed by a newline in the file, and the strings are sent
    in the order in which they lie in the file; when the bytes unread at
    the start and every write of another process are whole lines, the bytes
    taken from the reader are exactly the strings sent, each with its
    newline: each string is a whole line of the file and none is passed
    over. Whatever the run, no string sent holds a newline. *)
Theorem appended_lines_delivered :
  (∀ name T o i n,
     (0 < T)%Z → dir o !! name = Some i → i < length (disk o) →
     live_files (files o) < max_files o →
     live_watchers (watchers o) < max_watchers o →
     ∃ s, follow name (mkConfig T) [quiet]
            (Env (FsAppend name (line_of "foobar"))
               :: repeat (write_event name) (S n)) o
          = Running s
        ∧ Lines s.1 = [B "foobar"])
  ∧ (∀ h i script s,
       Reading h i s → Forall (λ x, calm x = true) script →
       ∃ s' a ls,
         watchLoop script s = Running s'
         ∧ content i s'.2 = content i s.2 ++ a
         ∧ Lines s'.1 = Lines s.1 ++ ls
         ∧ Forall (λ l, nl ∉ l) ls
         ∧ Delivered ls (unread s ++ a))
  ∧ (∀ h i script s,
       Reading h i s → whole (unread s) →
       Forall (λ x, calm x = true) script → Forall tidy script →
       ∃ s' a ls,
         watchLoop script s = Running s'
         ∧ content i s'.2 = content i s.2 ++ a
         ∧ Lines s'.1 = Lines s.1 ++ ls
         ∧ Forall (λ l, nl ∉ l) ls
         ∧ unread s ++ a = lines_bytes ls ++ unread s')
  ∧ (∀ name cfg rounds script o,
       Stripped (state_of (follow name cfg rounds script o))).
Proof.
  split_and!.
  - intros name T o i n _ Hd Hi Hf Hw.
    destruct (NewTail_existing name T [] o i Hd Hf Hw)
      as ([t1 o1] & HN & HR & Hu & HL & Hfs).
    unfold follow. rewrite HN. cbn [watchLoop repeat fst snd].
    destruct (env_step_Reading _ _ (FsAppend name (line_of "foobar")) _ _ HR)
      as (a & Ha & HR2 & Hu2 & _).
    simpl in Hfs.
    assert (Hd1 : dir o1 !! name = Some i) by (by rewrite (dir_fs _ _ Hfs)).
    assert (Hi1 : i < length (disk o1)).
    { unfold fs_of in Hfs. injection Hfs as _ -> _ _. done. }
    rewrite (FsAppend_content _ _ _ _ Hd1 Hi1) in Ha.
    apply app_inv_head in Ha as <-. rewrite Hu in Hu2. simpl in Hu2.
    unfold write_event at 1. rewrite onEvent_write.
    destruct (readLines_line _ _ _ (B "foobar") [] HR2 Hu2) as [HL3 Hu3].
    { apply cut_None. done. }
    destruct (readLines_spec _ _ _ HR2) as (HR3 & _).
    destruct (watchLoop_idle _ _ name n _ HR3 Hu3) as (s' & Hrun & HL').
    exists s'. split; [done|]. rewrite HL', HL3. simpl in *. by rewrite HL.
  - intros h i script s HR Hcalm.
    destruct (watchLoop_calm h i script s HR Hcalm)
      as (s' & a & ls & Hrun & _ & Hc & HL & HD).
    exists s', a, ls. split_and!; [done..| |done].
    by eapply Delivered_no_newline.
  - intros h i script. apply watchLoop_whole.
  - apply Stripped_follow.
Qed.

Lemma appended_lines_delivered_witness :
  ∃ s, follow test_log (mkConfig 10) [quiet]
         (Env (FsAppend test_log (line_of "foobar"))
            :: repeat (write_event test_log) 2) (one_file [])
       = Running s
     ∧ Lines s.1 = [B "foobar"].
Proof.
  apply (proj1 appended_lines_delivered test_log 10%Z (one_file []) 0 1).
  - reflexivity.
  - reflexivity.
  - vm_compute. lia.
  - vm_compute. lia.
  - vm_compute. lia.
Defined.

(** C6, at a failing input. A file that exists is followed with a timeout
    above 0; its line foobar is written in two appends, with a Write event
    after each. The file then holds the single line foobar, and the only
    string sent is bar: a string that is no whole line of the file. *)
Theorem sent_string_not_a_line :
  let s := state_of line_in_two_writes in
  content 0 s.2 = B "foobar" ++ [nl]
  ∧ file_lines (content 0 s.2) = [B "foobar"]
  ∧ Lines s.1 = [B "bar"]
  ∧ B "bar" ∉ file_lines (content 0 s.2).
Proof.
  vm_compute. split_and!; [reflexivity..|].
  intros H. apply list_elem_of_singleton in H. discriminate.
Qed.



(** ** One read for each event *)

(** C7, at a failing input. A line written in two appends, each followed
    by a Write event: the seven bytes of the file have all been read, the
    only string sent is bar and the reader retains nothing, so the bytes
    foo were neither delivered nor kept. *)
Theorem partial_line_bytes_lost :
  let s := state_of line_in_two_writes in
  bytes_read 0 s = B "foobar" ++ [nl]
  ∧ Lines s.1 = [B "bar"]
  ∧ retained s = []
  ∧ bytes_read 0 s ≠ accounted s.
Proof. vm_compute. split_and!; [reflexivity..|discriminate]. Qed.

(** C2, at a failing input. Two lines written by one append and one Write
    event for it: only the first line is sent, the second stays unread
    until another event arrives. *)
Theorem second_line_not_sent :
  ∃ s, two_lines_one_event = Running s
     ∧ Lines s.1 = [B "a"]
     ∧ unread s = line_of "b".
Proof. eexists. vm_compute. split_and!; reflexivity. Qed.

(** C1, at a failing input. A file created after following began is opened
    with the flag set and is not sought: its offset after [openFile] is 0.
    Holding two lines, it has only its first line sent at startup; the
    second stays unread. *)
Theorem new_file_not_drained :
  ∃ s, follow test_log (mkConfig 10) created_with_two_lines [] no_file
       = Running s
     ∧ map (λ a, (a_newFile a, a_offset a))
         (lr_trace (openAndWatch created_with_two_lines
                      (fresh_tail test_log 10, no_file)))
       = [(false, None); (true, Some 0)]
     ∧ Lines s.1 = [B "a"]
     ∧ unread s = line_of "b".
Proof. eexists. vm_compute. split_and!; reflexivity. Qed.

(** ** The polling loop of openAndWatch *)

Ltac split_trace H :=
  match type of H with
  | _ = ?pre ++ _ :: _ =>
      destruct pre as [|? pre]; simpl in H; simplify_eq/=;
      try (by destruct pre)
  end.

(** Without timeout there is no timer, and the attempt whose [openFile]
    fails is the last one. *)
Lemma pollLoop_no_timeout rounds : ∀ nf err s,
  Timeout (config s.1) = 0%Z →
  (∀ e, lr_signal (pollLoop rounds nf err s) ≠ ByTimer e)
  ∧ (∀ pre a post e,
       lr_trace (pollLoop rounds nf err s) = pre ++ a :: post →
       a_open a = Some e →
       post = [] ∧ lr_signal (pollLoop rounds nf err s) = ByLoop (Some e)).
Proof.
  induction rounds as [|r rounds IH]; intros nf err s HT; cbn [pollLoop].
  - rewrite decide_True by done. simpl. split; [done|].
    intros pre a post e H. by destruct pre.
  - destruct (openFile nf _) as [[e1|] s1] eqn:E1.
    + apply openFile_config in E1 as [Hc _]. simpl in Hc.
      rewrite decide_True by congruence. simpl. split; [done|].
      intros pre a post e H Ha. split_trace H. done.
    + apply openFile_config in E1 as [Hc1 _]. simpl in Hc1.
      destruct (watchFile nf _) as [[e2|] s3] eqn:E2.
      * apply watchFile_config in E2. simpl in E2.
        destruct (IH nf (Some e2) s3) as [IH1 IH2]; [congruence|].
        simpl. split; [done|].
        intros pre a post e H Ha. split_trace H. by eapply IH2.
      * simpl. split; [done|].
        intros pre a post e H Ha. split_trace H.
Qed.

(** Once the flag is set, it is passed to every later [openFile], and a
    file opened with it is at offset 0 when [openFile] returns. *)
Lemma pollLoop_flag_set rounds : ∀ err s,
  lr_newFile (pollLoop rounds true err s) = true
  ∧ Forall (λ b, a_newFile b = true ∧ (a_open b = None → a_offset b = Some 0))
      (lr_trace (pollLoop rounds true err s)).
Proof.
  induction rounds as [|r rounds IH]; intros err s; cbn [pollLoop].
  - by split.
  - destruct (openFile true _) as [[e1|] [t1 o1]] eqn:E1.
    + assert (Hnf : (if IsNotExist e1 && bool_decide (true = false)
                     then true else true) = true) by (by destruct (_ && _)).
      rewrite Hnf. destruct (decide _); simpl.
      * split; [done|]. by repeat constructor.
      * destruct (IH (Some e1) (t1, o1)) as [IH1 IH2].
        split; [done|]. by constructor.
    + assert (Ho : file_offset (t1, o1) = Some 0).
      { apply openFile_ok in E1 as (i & _ & Hf & _ & Hl).
        unfold file_offset. simpl in *. rewrite Hf. simpl. by rewrite Hl. }
      destruct (watchFile true _) as [[e2|] s3] eqn:E2; simpl.
      * destruct (IH (Some e2) s3) as [IH1 IH2].
        split; [done|]. by constructor.
      * split; [done|]. by repeat constructor.
Qed.

Lemma pollLoop_not_found rounds : ∀ nf err s pre a post e,
  lr_trace (pollLoop rounds nf err s) = pre ++ a :: post →
  a_open a = Some e → IsNotExist e = true →
  lr_newFile (pollLoop rounds nf err s) = true
  ∧ Forall (λ b, a_newFile b = true ∧ (a_open b = None → a_offset b = Some 0))
      post.
Proof.
  induction rounds as [|r rounds IH]; intros nf err s pre a post e;
    cbn [pollLoop].
  - intros H. by destruct pre.
  - destruct (openFile nf _) as [[e1|] s1] eqn:E1.
    + destruct (decide _); simpl.
      * intros H Ha He. split_trace H. rewrite He. by destruct nf.
      * intros H Ha He. split_trace H.
        -- rewrite He.
           assert (Hnf : (if true && bool_decide (nf = false) then true else nf)
                         = true) by (by destruct nf).
           rewrite Hnf. apply pollLoop_flag_set.
        -- by eapply IH.
    + destruct (watchFile nf _) as [[e2|] s3] eqn:E2; simpl.
      * intros H Ha He. split_trace H. by eapply IH.
      * intros H Ha He. split_trace H.
Qed.

(** A loop that does not end in success sends nothing on [Lines]. *)
Lemma pollLoop_failed_Lines rounds : ∀ nf err s,
  returned (lr_signal (pollLoop rounds nf err s)) ≠ Some None →
  Lines (lr_state (pollLoop rounds nf err s)).1 = Lines s.1.
Proof.
  induction rounds as [|r rounds IH]; intros nf err s; cbn [pollLoop].
  - done.
  - destruct (openFile nf _) as [[e1|] s1] eqn:E1;
      apply openFile_config in E1 as [_ HL1]; simpl in HL1.
    + destruct (decide _); simpl; [done|].
      intros H. by rewrite IH.
    + destruct (watchFile nf _) as [[e2|] s3] eqn:E2; simpl; [|done].
      apply watchFile_failed_Lines in E2. simpl in E2.
      intros H. rewrite IH by done. congruence.
Qed.

(** C8. In the loop of [openAndWatch], an attempt whose [openFile] fails
    with a not-found error sets the flag: the loop ends with the flag set,
    every later attempt of the loop passes it set, and a later [openFile]
    that succeeds leaves the file at offset 0. *)
Theorem not_found_sets_flag rounds s pre a post e :
  lr_trace (openAndWatch rounds s) = pre ++ a :: post →
  a_open a = Some e → IsNotExist e = true →
  lr_newFile (openAndWatch rounds s) = true
  ∧ Forall (λ b, a_newFile b = true ∧ (a_open b = None → a_offset b = Some 0))
      post.
Proof. apply pollLoop_not_found. Qed.

Lemma not_found_sets_flag_witness :
  lr_newFile (openAndWatch (quiet :: created_with_two_lines)
                (fresh_tail test_log 10, no_file)) = true
  ∧ Forall (λ b, a_newFile b = true ∧ (a_open b = None → a_offset b = Some 0))
      [mkAttempt true (Some ENOENT) None None;
       mkAttempt true None (Some 0) (Some None)].
Proof.
  apply (not_found_sets_flag (quiet :: created_with_two_lines)
           (fresh_tail test_log 10, no_file)
           [] (mkAttempt false (Some ENOENT) None None) _ ENOENT).
  - vm_compute. reflexivity.
  - reflexivity.
  - reflexivity.
Defined.

(** C4 as stated fails: without timeout, on a path that does not exist,
    [openAndWatch] returns the error of its first attempt although more
    rounds were there to run. *)
Lemma gives_up_without_timeout :
  let L := openAndWatch [quiet; quiet; quiet] (fresh_tail test_log 0, no_file) in
  Timeout (config (fresh_tail test_log 0)) = 0%Z
  ∧ gives_up L
  ∧ lr_trace L = [mkAttempt false (Some ENOENT) None None].
Proof. vm_compute. split_and!; [reflexivity|by exists ENOENT|reflexivity]. Qed.

(** C4, amended. Without timeout the result of [openAndWatch] never comes
    from the timer; and a failed [openFile] is not retried: the attempt
    that meets it is the last of the loop and its error is the result. *)
Theorem no_timeout_no_timer rounds s :
  Timeout (config s.1) = 0%Z →
  (∀ e, lr_signal (openAndWatch rounds s) ≠ ByTimer e)
  ∧ (∀ pre a post e,
       lr_trace (openAndWatch rounds s) = pre ++ a :: post →
       a_open a = Some e →
       post = [] ∧ lr_signal (openAndWatch rounds s) = ByLoop (Some e)).
Proof. apply pollLoop_no_timeout. Qed.

Lemma no_timeout_no_timer_witness :
  (∀ e, lr_signal (openAndWatch [quiet; quiet; quiet]
                     (fresh_tail test_log 0, no_file)) ≠ ByTimer e)
  ∧ (∀ pre a post e,
       lr_trace (openAndWatch [quiet; quiet; quiet]
                   (fresh_tail test_log 0, no_file)) = pre ++ a :: post →
       a_open a = Some e →
       post = []
       ∧ lr_signal (openAndWatch [quiet; quiet; quiet]
                      (fresh_tail test_log 0, no_file)) = ByLoop (Some e)).
Proof.
  apply (no_timeout_no_timer [quiet; quiet; quiet]
           (fresh_tail test_log 0, no_file)).
  reflexivity.
Defined.

(** C5 as stated fails: the followed file is removed, the Remove event
    triggers a re-open that fails, and the process is ended. *)
Lemma reopen_failure_ends_process :
  onEvent remove_event [quiet] removed_state
  = Fatal ENOENT (lr_state (openAndWatch [quiet] removed_state))
  ∧ ¬ survives (onEvent remove_event [quiet] removed_state).
Proof. split; [by vm_compute|]. vm_compute. tauto. Qed.

(** C5, amended. When the re-open triggered by a Create, Rename or Remove
    event fails, the follower logs the error with [log.Fatalln], which ends
    the process; nothing is sent to the consumer on [Lines]. *)
Theorem reopen_failure_is_fatal evt rounds s e :
  disruptive evt = true →
  returned (lr_signal (openAndWatch rounds s)) = Some (Some e) →
  onEvent evt rounds s = Fatal e (lr_state (openAndWatch rounds s))
  ∧ Lines (lr_state (openAndWatch rounds s)).1 = Lines s.1.
Proof.
  intros Hd Hr. split.
  - unfold onEvent. by rewrite Hd, Hr.
  - unfold openAndWatch in *. apply pollLoop_failed_Lines. by rewrite Hr.
Qed.

Lemma reopen_failure_is_fatal_witness :
  onEvent remove_event [quiet] removed_state
  = Fatal ENOENT (lr_state (openAndWatch [quiet] removed_state))
  ∧ Lines (lr_state (openAndWatch [quiet] removed_state)).1
    = Lines removed_state.1.
Proof.
  apply (reopen_failure_is_fatal remove_event [quiet] removed_state ENOENT).
  - reflexivity.
  - vm_compute. reflexivity.
Defined.

(** ** One file and one watcher at a time *)

Section Live.
Context {A : Type} (closed : A → bool).

Lemma live_closed l : Forall (λ x, closed x = true) l → live closed l = 0.
Proof.
  unfold live. induction 1 as [|x l Hx _ IH]; [done|].
  rewrite filter_cons_False by congruence. done.
Qed.

Lemma live_app l k : live closed (l ++ k) = live closed l + live closed k.
Proof. unfold live. by rewrite filter_app, length_app. Qed.

Lemma live_one x : live closed [x] ≤ 1.
Proof. apply (length_filter (λ x, closed x = false) [x]). Qed.

Lemma sole_None l : sole closed l None ↔ Forall (λ x, closed x = true) l.
Proof.
  rewrite Forall_lookup. unfold sole. split.
  - intros H i x Hl. destruct (closed x) eqn:E; [done|].
    by specialize (H i x Hl E).
  - intros H i x Hl E. specialize (H i x Hl). simpl in H. congruence.
Qed.

Lemma sole_weaken l held : sole closed l None → sole closed l held.
Proof. intros H h x Hl Hx. by specialize (H h x Hl Hx). Qed.

(** At most one entry is live when the live ones are all at one index. *)
Lemma sole_live l held : sole closed l held → live closed l ≤ 1.
Proof.
  intros H.
  assert (Hother : ∀ h j y, held = Some h → l !! j = Some y → j ≠ h →
                            closed y = true).
  { intros h j y -> Hj Hne. destruct (closed y) eqn:Ey; [done|].
    specialize (H _ _ Hj Ey). congruence. }
  destruct held as [h|]; [|rewrite live_closed; [lia|by apply sole_None]].
  destruct (l !! h) as [x|] eqn:E.
  - rewrite <- (take_drop_middle l h x E).
    change (x :: drop (S h) l) with ([x] ++ drop (S h) l).
    rewrite !live_app.
    assert (H1 : live closed (take h l) = 0).
    { apply live_closed, Forall_lookup. intros j y Hj.
      apply lookup_take_Some in Hj as [Hj Hlt].
      eapply (Hother h j); [done..|lia]. }
    assert (H2 : live closed (drop (S h) l) = 0).
    { apply live_closed, Forall_lookup. intros j y Hj.
      rewrite lookup_drop in Hj. eapply (Hother h); [done..|lia]. }
    pose proof (live_one x). lia.
  - rewrite live_closed; [lia|]. apply Forall_lookup. intros j y Hj.
    eapply (Hother h j); [done..|]. intros ->. congruence.
Qed.

Lemma sole_insert_same l held k x x' :
  sole closed l held → l !! k = Some x → closed x' = closed x →
  sole closed (<[k:=x']> l) held.
Proof.
  intros H Hk Hc h y Hl Hy. destruct (decide (k = h)) as [->|Hne].
  - rewrite list_lookup_insert_eq in Hl by (by eapply lookup_lt_Some).
    injection Hl as <-. apply (H h x Hk). congruence.
  - rewrite list_lookup_insert_ne in Hl by done. by apply (H h y).
Qed.

Lemma sole_insert_closed l held k x' :
  sole closed l held → (∀ h, held = Some h → h = k) → closed x' = true →
  sole closed (<[k:=x']> l) None.
Proof.
  intros H Hk Hc h y Hl Hy. destruct (decide (k = h)) as [->|Hne].
  - rewrite list_lookup_insert_eq in Hl.
    + congruence.
    + apply lookup_lt_Some in Hl. by rewrite length_insert in Hl.
  - rewrite list_lookup_insert_ne in Hl by done.
    specialize (H h y Hl Hy). specialize (Hk h H). congruence.
Qed.

Lemma sole_dangling l held k :
  sole closed l held → (∀ h, held = Some h → h = k) → l !! k = None →
  sole closed l None.
Proof.
  intros H Hk Hn h y Hl Hy. specialize (H h y Hl Hy).
  specialize (Hk h H). congruence.
Qed.

Lemma sole_snoc l x : sole closed l None → sole closed (l ++ [x]) (Some (length l)).
Proof.
  intros H h y Hl Hy. apply lookup_snoc_Some in Hl as [[_ Hl]|[-> _]]; [|done].
  by specialize (H h y Hl Hy).
Qed.
End Live.

Lemma HeldAt_files o fs hf hw hf' :
  HeldAt o hf hw → sole f_closed fs hf' → HeldAt (set_files fs o) hf' hw.
Proof.
  intros (Hp1 & Hp2 & _ & Hw) Hs. split_and!; simpl; [|done..].
  pose proof (sole_live _ _ _ Hs). unfold live_files. lia.
Qed.

Lemma HeldAt_watchers o ws hf hw hw' :
  HeldAt o hf hw → sole w_closed ws hw' → HeldAt (set_watchers ws o) hf hw'.
Proof.
  intros (Hp1 & Hp2 & Hf & _) Hs. split_and!; simpl; [done| |done..].
  pose proof (sole_live _ _ _ Hs). unfold live_watchers. lia.
Qed.

Lemma HeldAt_env op o hf hw : HeldAt o hf hw → HeldAt (env_step op o) hf hw.
Proof.
  intros H. destruct op; simpl; try done.
  - by destruct (dir o !! name).
  - by destruct (dir o !! old).
Qed.

Lemma HeldAt_envs ops : ∀ o hf hw, HeldAt o hf hw → HeldAt (env_steps ops o) hf hw.
Proof.
  unfold env_steps. induction ops as [|op ops IH]; intros o hf hw H; simpl.
  - done.
  - by apply IH, HeldAt_env.
Qed.

Lemma HeldAt_os_Close o h hf hw :
  HeldAt o hf hw → (∀ h', hf = Some h' → h' = h) →
  HeldAt (os_Close h o) None hw.
Proof.
  intros H Hh. unfold os_Close. destruct (files o !! h) as [f|] eqn:E.
  - eapply HeldAt_files; [done|].
    destruct H as (_ & _ & Hf & _). by eapply sole_insert_closed.
  - destruct H as (? & ? & Hf & ?). split_and!; [done..| |done].
    by eapply sole_dangling.
Qed.

Lemma HeldAt_os_Open name o hw :
  HeldAt o None hw →
  HeldAt (os_Open name o).2
    (match (os_Open name o).1 with inl h => Some h | inr _ => None end) hw.
Proof.
  intros H. unfold os_Open. case_decide; [done|].
  destruct (dir o !! name); [|done]. simpl.
  eapply HeldAt_files; [done|]. apply sole_snoc. by destruct H as (_ & _ & ? & _).
Qed.

Lemma HeldAt_os_Seek h n w o hf hw :
  HeldAt o hf hw → HeldAt (os_Seek h n w o).2 hf hw.
Proof.
  intros H. unfold os_Seek. destruct (files o !! h) as [f|] eqn:E; [|done].
  destruct (f_closed f) eqn:Ef; [done|]. simpl.
  eapply HeldAt_files; [done|].
  destruct H as (_ & _ & Hf & _). by eapply sole_insert_same.
Qed.

Lemma HeldAt_os_Read h o hf hw :
  HeldAt o hf hw → HeldAt (os_Read h o).2 hf hw.
Proof.
  intros H. unfold os_Read. destruct (files o !! h) as [f|] eqn:E; [|done].
  destruct (f_closed f) eqn:Ef; [done|]. simpl.
  eapply HeldAt_files; [done|].
  destruct H as (_ & _ & Hf & _). by eapply sole_insert_same.
Qed.

Lemma HeldAt_Watcher_Close o w hf hw :
  HeldAt o hf hw → (∀ w', hw = Some w' → w' = w) →
  HeldAt (Watcher_Close w o) hf None.
Proof.
  intros H Hh. unfold Watcher_Close. destruct (watchers o !! w) as [x|] eqn:E.
  - eapply HeldAt_watchers; [done|].
    destruct H as (_ & _ & _ & Hw). by eapply sole_insert_closed.
  - destruct H as (? & ? & ? & Hw). split_and!; [done..|].
    by eapply sole_dangling.
Qed.

Lemma HeldAt_NewWatcher o hf :
  HeldAt o hf None →
  HeldAt (NewWatcher o).2 hf
    (match (NewWatcher o).1 with inl w => Some w | inr _ => None end).
Proof.
  intros H. unfold NewWatcher. case_decide; [done|]. simpl.
  eapply HeldAt_watchers; [done|]. apply sole_snoc. by destruct H as (_ & _ & _ & ?).
Qed.

Lemma HeldAt_Watcher_Add w name o hf hw :
  HeldAt o hf hw → HeldAt (Watcher_Add w name o).2 hf hw.
Proof.
  intros H. unfold Watcher_Add. destruct (watchers o !! w) as [x|] eqn:E; [|done].
  destruct (w_closed x) eqn:Ex; [done|].
  destruct (dir o !! name); [|done]. simpl.
  eapply HeldAt_watchers; [done|].
  destruct H as (_ & _ & _ & Hw). by eapply sole_insert_same.
Qed.

Lemma HeldAt_no_file o hf hw : HeldAt o None hw → HeldAt o hf hw.
Proof.
  intros (? & ? & Hf & ?). split_and!; [done..| |done]. by apply sole_weaken.
Qed.

Lemma HeldAt_no_watcher o hf hw : HeldAt o hf None → HeldAt o hf hw.
Proof.
  intros (? & ? & ? & Hw). split_and!; [done..|]. by apply sole_weaken.
Qed.

(** What [openFile] and [Close] do first: close the file held. *)
Lemma HeldAt_close_held t o :
  Held (t, o) →
  HeldAt (match file t with Some h => os_Close h o | None => o end)
    None (watcher t).
Proof.
  unfold Held. simpl. intros H. destruct (file t) as [h|] eqn:Ef; [|done].
  eapply HeldAt_os_Close; [done|]. congruence.
Qed.

Lemma HeldAt_close_watcher t o hf :
  HeldAt o hf (watcher t) →
  HeldAt (match watcher t with Some w => Watcher_Close w o | None => o end)
    hf None.
Proof.
  intros H. destruct (watcher t) as [w|] eqn:Ew; [|done].
  eapply HeldAt_Watcher_Close; [done|]. congruence.
Qed.

Lemma Held_readLines s : Held s → Held (readLines s).
Proof.
  destruct s as [t o]. intros H. unfold readLines.
  destruct (reader t) as [r|]; [|done]. unfold ReadString.
  destruct (cut nl (buf r)) as [[l rest]|]; [done|].
  pose proof (HeldAt_os_Read (rd r) o _ _ H) as H1.
  destruct (os_Read (rd r) o) as [[data e] o'].
  destruct (cut nl (buf r ++ data)) as [[l rest]|]; [done|].
  by destruct (decide _).
Qed.

Lemma Held_openFile b s : Held s → Held (openFile b s).2.
Proof.
  destruct s as [t o]. intros H. unfold openFile.
  pose proof (HeldAt_close_held t o H) as H1.
  set (o1 := match file t with Some h => _ | None => _ end) in *.
  pose proof (HeldAt_os_Open (fname t) o1 _ H1) as H2.
  destruct (os_Open (fname t) o1) as [[h|e] o2]; simpl in *; [|done].
  destruct b; simpl; [done|].
  pose proof (HeldAt_os_Seek h 0 2 o2 _ _ H2) as H3.
  by destruct (os_Seek h 0 2 o2) as [[e|] o3].
Qed.

Lemma Held_watchFile b s : Held s → Held (watchFile b s).2.
Proof.
  destruct s as [t o]. intros H. unfold watchFile.
  pose proof (HeldAt_close_watcher t o _ H) as H1.
  set (o1 := match watcher t with Some w => _ | None => _ end) in *.
  pose proof (HeldAt_NewWatcher o1 _ H1) as H2.
  destruct (NewWatcher o1) as [[w|e] o2]; simpl in *; [|done].
  pose proof (HeldAt_Watcher_Add w (fname t) o2 _ _ H2) as H3.
  destruct (Watcher_Add w (fname t) o2) as [[e|] o3]; simpl in *; [done|].
  destruct b; [|done]. by apply Held_readLines.
Qed.

Lemma Held_pollLoop rounds : ∀ nf err s,
  Held s → Held (lr_state (pollLoop rounds nf err s)).
Proof.
  induction rounds as [|r rounds IH]; intros nf err [t o] H; cbn [pollLoop].
  - done.
  - assert (H0 : Held (t, env_steps (pre_open r) o)) by (by apply HeldAt_envs).
    apply (Held_openFile nf) in H0.
    destruct (openFile nf _) as [[e1|] [t1 o1]]; simpl in H0.
    + destruct (decide _); simpl; [done|]. by apply IH.
    + assert (H1 : Held (t1, env_steps (pre_watch r) o1)) by (by apply HeldAt_envs).
      apply (Held_watchFile nf) in H1.
      destruct (watchFile nf _) as [[e2|] s3]; simpl in *; [|done].
      by apply IH.
Qed.

Lemma Held_Close s : Held s → Held (Close s).
Proof.
  destruct s as [t o]. intros H. unfold Close.
  apply HeldAt_no_watcher, HeldAt_close_watcher.
  apply HeldAt_no_file. by apply HeldAt_close_held.
Qed.

Lemma Held_onEvent evt rounds s : Held s → Held (state_of (onEvent evt rounds s)).
Proof.
  intros H. unfold onEvent. destruct (disruptive evt).
  - pose proof (Held_pollLoop rounds false None s H) as HL.
    unfold openAndWatch.
    destruct (returned _) as [[e|]|]; simpl; [done| |done].
    destruct (is_write evt); [by apply Held_readLines|done].
  - simpl. destruct (is_write evt); [by apply Held_readLines|done].
Qed.

Lemma Held_watchLoop script : ∀ s, Held s → Held (state_of (watchLoop script s)).
Proof.
  induction script as [|x k IH]; intros [t o] H; simpl; [done|].
  destruct x as [op|evt rounds|e|].
  - apply IH. by apply HeldAt_env.
  - pose proof (Held_onEvent evt rounds (t, o) H) as H1.
    destruct (onEvent evt rounds (t, o)); simpl in *; [by apply IH|done..].
  - by apply IH.
  - by apply (Held_Close (t, o)).
Qed.

Lemma Held_boot name cfg d dk nf nw :
  Held (mkTail [] None None name None cfg, boot d dk nf nw).
Proof. split_and!; simpl; [lia|lia|..]; by intros h x Hl; rewrite lookup_nil in Hl. Qed.

Lemma Held_follow name cfg rounds script d dk nf nw :
  Held (state_of (follow name cfg rounds script (boot d dk nf nw))).
Proof.
  unfold follow, NewTail, openAndWatch.
  pose proof (Held_pollLoop rounds false None _ (Held_boot name cfg d dk nf nw)) as H.
  destruct (returned _) as [[e|]|]; simpl; [done| |done].
  by apply Held_watchLoop.
Qed.

(** A re-open closes what was held before it installs the new file. *)
Lemma openFile_closes b s :
  Held s → earlier_closed f_closed (files s.2) (files (openFile b s).2.2).
Proof.
  destruct s as [t o]. intros H. unfold openFile, earlier_closed.
  pose proof (HeldAt_close_held t o H) as (_ & _ & H1 & _).
  apply sole_None in H1.
  assert (Hlen : length (files (match file t with
                                | Some h => os_Close h o | None => o end))
                 = length (files o)).
  { destruct (file t); [apply os_Close_length|done]. }
  set (o1 := match file t with Some h => _ | None => _ end) in *.
  simpl. rewrite <- Hlen. unfold os_Open. case_decide.
  { simpl. by rewrite take_ge. }
  destruct (dir o1 !! fname t); simpl; [|by rewrite take_ge].
  destruct b; simpl; [by rewrite take_app_length|].
  unfold os_Seek. simpl. rewrite list_lookup_middle by done. simpl.
  rewrite take_insert_ge by done. by rewrite take_app_length.
Qed.

Lemma watchFile_closes b s :
  Held s → earlier_closed w_closed (watchers s.2) (watchers (watchFile b s).2.2).
Proof.
  destruct s as [t o]. intros H. unfold watchFile, earlier_closed.
  pose proof (HeldAt_close_watcher t o _ H) as (_ & _ & _ & H1).
  apply sole_None in H1.
  assert (Hlen : length (watchers (match watcher t with
                                   | Some w => Watcher_Close w o | None => o end))
                 = length (watchers o)).
  { destruct (watcher t) as [w|]; [|done]. unfold Watcher_Close.
    destruct (watchers o !! w); [|done]. simpl. apply length_insert. }
  set (o1 := match watcher t with Some w => _ | None => _ end) in *.
  simpl. rewrite <- Hlen. unfold NewWatcher. case_decide.
  { simpl. by rewrite take_ge. }
  simpl. unfold Watcher_Add. simpl. rewrite list_lookup_middle by done. simpl.
  destruct (dir o1 !! fname t); simpl; [|by rewrite take_app_length].
  assert (Hw : ∀ s', watchers (if b then readLines s' else s').2 = watchers s'.2).
  { intros s'. destruct b; [|done]. apply readLines_frame. }
  rewrite Hw. simpl.
  rewrite take_insert_ge by done. by rewrite take_app_length.
Qed.

(** With one event handled at a time: wherever the follower stands after
    [NewTail] and any run of its event loop, at most one file and one
    watcher are live, they are the
    ones the Tail holds, and at no earlier moment were two files or two
    watchers live; a re-open from there leaves every file that existed
    before it closed, and every watcher likewise. *)
Theorem one_triple_live name cfg rounds script d dk nf nw :
  let s := state_of (follow name cfg rounds script (boot d dk nf nw)) in
  Held s
  ∧ live_files (files s.2) ≤ 1
  ∧ live_watchers (watchers s.2) ≤ 1
  ∧ (∀ b, earlier_closed f_closed (files s.2) (files (openFile b s).2.2))
  ∧ (∀ b, earlier_closed w_closed (watchers s.2)
            (watchers (watchFile b s).2.2)).
Proof.
  intros s. pose proof (Held_follow name cfg rounds script d dk nf nw) as H.
  fold s in H. split_and!; [done| | |..].
  - destruct H as (_ & _ & Hf & _). by eapply sole_live.
  - destruct H as (_ & _ & _ & Hw). by eapply sole_live.
  - intros b. by apply openFile_closes.
  - intros b. by apply watchFile_closes.
Qed.

(** The two steps are [openFile], and [watchFile], cut after their first
    statement. *)
Lemma openFile_halves b s : openFile b s = openFile_open b (openFile_close s).
Proof. by destruct s as [t o]. Qed.

Lemma watchFile_halves b s :
  watchFile b s = watchFile_new b (watchFile_close s).
Proof. by destruct s as [t o]. Qed.

(** C9, at a failing input. After a first re-open two event goroutines
    receive from the watcher held; the path is replaced again and each of
    them handles one of the two events, so two re-opens run at once on the
    Tail. When both have closed the file held before either opens, both
    open a file and the second assignment of [t.file] drops the first file
    without closing it; the watchers fare the same. Two files and two
    watchers are then live, one of each referenced by nothing. *)
Theorem concurrent_reopens_leak :
  let s0 := twice_replaced_state in
  let a := openFile_open false (openFile_close (openFile_close s0)) in
  let b := openFile_open false a.2 in
  let c := watchFile_new false (watchFile_close (watchFile_close b.2)) in
  let d := watchFile_new false c.2 in
  Held s0
  ∧ (a.1 = None ∧ b.1 = None ∧ c.1 = None ∧ d.1 = None)
  ∧ live_files (files d.2.2) = 2
  ∧ live_watchers (watchers d.2.2) = 2
  ∧ peak_files d.2.2 = 2 ∧ peak_watchers d.2.2 = 2
  ∧ (file a.2.1 = Some 2 ∧ file d.2.1 = Some 3)
  ∧ (watcher c.2.1 = Some 2 ∧ watcher d.2.1 = Some 3).
Proof.
  split.
  - exact (Held_follow test_log (mkConfig 10) [quiet]
             [Env (FsCreate test_log (line_of "new"));
              Evt create_event [quiet];
              Env (FsCreate test_log (line_of "newer"))]
             {[ test_log := 0 ]} [line_of "old"] 8 8).
  - vm_compute. split_and!; reflexivity.
Qed.

(** ** A watch step that keeps failing *)

Lemma openFile_succeeds b s i :
  Held s → dir s.2 !! fname s.1 = Some i → 0 < max_files s.2 →
  (openFile b s).1 = None.
Proof.
  destruct s as [t o]. simpl. intros H Hd Hm. unfold openFile.
  pose proof (HeldAt_close_held t o H) as (_ & _ & H1 & _).
  apply sole_None, live_closed in H1.
  assert (Hfs : fs_of (match file t with
                       | Some h => os_Close h o | None => o end) = fs_of o).
  { destruct (file t); [apply os_Close_fs|done]. }
  set (o1 := match file t with Some h => _ | None => _ end) in *.
  unfold os_Open. rewrite (dir_fs _ _ Hfs), Hd.
  rewrite decide_False.
  - destruct b; simpl; [done|]. unfold os_Seek. simpl.
    by rewrite list_lookup_middle.
  - unfold live_files. rewrite H1. unfold fs_of in Hfs.
    injection Hfs as _ _ -> _. lia.
Qed.

Lemma watchFile_no_inotify b s :
  max_watchers s.2 = 0 → (watchFile b s).1 = Some EMFILE.
Proof.
  destruct s as [t o]. simpl. intros Hm. unfold watchFile.
  assert (Hfs : fs_of (match watcher t with
                       | Some w => Watcher_Close w o | None => o end) = fs_of o).
  { destruct (watcher t); [apply Watcher_Close_fs|done]. }
  set (o1 := match watcher t with Some w => _ | None => _ end) in *.
  unfold NewWatcher. rewrite decide_True; [done|].
  unfold fs_of in Hfs. injection Hfs as _ _ _ ->. lia.
Qed.

Lemma pollLoop_no_inotify n : ∀ nf err s i,
  Held s → Timeout (config s.1) = 0%Z →
  dir s.2 !! fname s.1 = Some i → 0 < max_files s.2 → max_watchers s.2 = 0 →
  lr_signal (pollLoop (repeat quiet n) nf err s) = Pending
  ∧ Forall (λ a, a_open a = None ∧ a_watch a = Some (Some EMFILE))
      (lr_trace (pollLoop (repeat quiet n) nf err s))
  ∧ length (lr_trace (pollLoop (repeat quiet n) nf err s)) = n.
Proof.
  induction n as [|n IH]; intros nf err [t o] i H HT Hd Hf Hw;
    cbn [repeat pollLoop]; simpl in *.
  - by rewrite decide_True.
  - pose proof (openFile_succeeds nf (t, o) i H Hd Hf) as E1.
    pose proof (Held_openFile nf (t, o) H) as H1.
    pose proof (openFile_frame nf (t, o)) as (Hfs1 & _ & Hn1 & Hc1 & _).
    destruct (openFile nf (t, o)) as [e1 [t1 o1]]. simpl in *. subst e1.
    pose proof (watchFile_no_inotify nf (t1, o1)) as E2.
    pose proof (Held_watchFile nf (t1, o1) H1) as H2.
    pose proof (watchFile_frame nf (t1, o1)) as (Hfs2 & Hn2 & Hc2 & _).
    destruct (watchFile nf (t1, o1)) as [e2 [t2 o2]]. simpl in *.
    unfold fs_of in Hfs1, Hfs2.
    injection Hfs1 as Hd1 Hk1 Hmf1 Hmw1. injection Hfs2 as Hd2 Hk2 Hmf2 Hmw2.
    rewrite E2 by congruence.
    destruct (IH nf (Some EMFILE) (t2, o2) i) as (IH1 & IH2 & IH3);
      simpl; [done|congruence..|].
    simpl. split_and!; [done| |by rewrite IH3].
    by constructor.
Qed.

(** C3, at a failing input. Without timeout, on a path that exists, a
    failure of the watch step is not returned: the loop runs again, and
    returns success once an inotify instance is available; while none is,
    the loop keeps polling and the call does not return, however many
    rounds are run. *)
Theorem watch_failure_retried :
  (let L := openAndWatch [quiet; mkRound [SetMaxWatchers 8] []]
              (fresh_tail test_log 0, no_inotify) in
   lr_signal L = ByLoop None
   ∧ map (λ a, (a_open a, a_watch a)) (lr_trace L)
     = [(None, Some (Some EMFILE)); (None, Some None)])
  ∧ (∀ n,
       let L := openAndWatch (repeat quiet n)
                  (fresh_tail test_log 0, no_inotify) in
       lr_signal L = Pending
       ∧ Forall (λ a, a_open a = None ∧ a_watch a = Some (Some EMFILE))
           (lr_trace L)
       ∧ length (lr_trace L) = n).
Proof.
  split; [vm_compute; split; reflexivity|].
  intros n. apply (pollLoop_no_inotify n false None _ 0).
  - apply Held_boot.
  - reflexivity.
  - reflexivity.
  - vm_compute. lia.
  - reflexivity.
Qed.

(** * Further properties of the methods *)

(** ** openFile and readLines at their edges *)

Lemma openFile_installs b t o s' :
  openFile b (t, o) = (None, s') →
  ∃ i, dir o !! fname t = Some i
     ∧ file s'.1 = Some (length (files o))
     ∧ Reading (length (files o)) i s'
     ∧ retained s' = []
     ∧ unread s' = if b then content i o else [].
Proof.
  intros H. destruct (openFile_Reading _ _ _ _ H) as (i & Hd & HR & Hu).
  apply openFile_ok in H as (i' & Hd' & Hf & Hr & _).
  exists i. split_and!; [done..| |done].
  unfold retained. by rewrite Hr.
Qed.

(** X1. A successful [openFile] installs a new file and a reader with an
    empty buffer: nothing of the file is unread when the flag is false (the
    file is at its end), all of it is unread when the flag is true. What
    the previous reader had not returned is gone with it. *)
Theorem openFile_positions b t o s' :
  openFile b (t, o) = (None, s') →
  ∃ i, dir o !! fname t = Some i
     ∧ file s'.1 = Some (length (files o))
     ∧ Reading (length (files o)) i s'
     ∧ retained s' = []
     ∧ unread s' = if b then content i o else [].
Proof. apply openFile_installs. Qed.

Lemma openFile_positions_witness :
  ∃ i, dir (one_file (line_of "old")) !! fname (fresh_tail test_log 10) = Some i
     ∧ file (openFile false (fresh_tail test_log 10,
                             one_file (line_of "old"))).2.1
       = Some (length (files (one_file (line_of "old"))))
     ∧ Reading (length (files (one_file (line_of "old")))) i
         (openFile false (fresh_tail test_log 10, one_file (line_of "old"))).2
     ∧ retained (openFile false (fresh_tail test_log 10,
                                 one_file (line_of "old"))).2 = []
     ∧ unread (openFile false (fresh_tail test_log 10,
                               one_file (line_of "old"))).2
       = if false then content i (one_file (line_of "old")) else [].
Proof.
  apply (openFile_positions false (fresh_tail test_log 10)
           (one_file (line_of "old"))).
  vm_compute. reflexivity.
Defined.

(** X2. A failed [openFile] has closed the file that was held and stored no
    new reader: the Tail keeps its previous reader, now on a closed file,
    and nothing is sent. *)
Theorem failed_open_keeps_reader b s e s' :
  openFile b s = (Some e, s') →
  reader s'.1 = reader s.1 ∧ Lines s'.1 = Lines s.1
  ∧ ∀ h f, file s.1 = Some h → files s.2 !! h = Some f →
      ∃ f', files s'.2 !! h = Some f' ∧ f_closed f' = true.
Proof.
  destruct s as [t o]. unfold openFile.
  assert (Hold : ∀ h f, file t = Some h → files o !! h = Some f →
            files (match file t with Some h => os_Close h o | None => o end) !! h
            = Some (mkFile (f_ino f) (f_off f) true)).
  { intros h f -> Hf. unfold os_Close. rewrite Hf. simpl.
    apply list_lookup_insert_eq. by eapply lookup_lt_Some. }
  set (o1 := match file t with Some h => _ | None => _ end) in *.
  unfold os_Open. case_decide.
  { intros [= <- <-]. simpl. split_and!; [done..|].
    intros h f Hh Hf. rewrite (Hold h f Hh Hf). by eexists. }
  destruct (dir o1 !! fname t) as [i|].
  - destruct b; simpl; [done|]. unfold os_Seek. simpl.
    by rewrite list_lookup_middle.
  - intros [= <- <-]. simpl. split_and!; [done..|].
    intros h f Hh Hf. rewrite (Hold h f Hh Hf). by eexists.
Qed.

Lemma failed_open_keeps_reader_witness :
  reader (openFile false removed_state).2.1 = reader removed_state.1
  ∧ Lines (openFile false removed_state).2.1 = Lines removed_state.1
  ∧ ∀ h f, file removed_state.1 = Some h → files removed_state.2 !! h = Some f →
      ∃ f', files (openFile false removed_state).2.2 !! h = Some f'
          ∧ f_closed f' = true.
Proof.
  apply (failed_open_keeps_reader false removed_state ENOENT).
  vm_compute. reflexivity.
Defined.

(** X3. [readLines] holds back a string only on [io.EOF]. When the read
    fails otherwise, as on a file that has been closed, the bytes buffered
    without a newline are sent as a line, be it the empty string, and
    leave the buffer. *)
Theorem read_error_sends_buffer t o r :
  reader t = Some r →
  (∀ f, files o !! rd r = Some f → f_closed f = true) →
  nl ∉ buf r →
  readLines (t, o)
  = (set_Lines (Lines t ++ [buf r])
       (set_reader (Some (mkReader (rd r) [])) t), o).
Proof.
  intros Hr Hc Hb. unfold readLines, ReadString. rewrite Hr.
  apply cut_None in Hb as Hcut. rewrite Hcut.
  assert (os_Read (rd r) o = ([], ErrClosed, o)) as ->.
  { unfold os_Read. destruct (files o !! rd r) as [f|]; [|done].
    by rewrite (Hc f eq_refl). }
  rewrite app_nil_r, Hcut. rewrite decide_False by done. simpl.
  rewrite TrimRight_keeps; [done|].
  intros c Hin. apply list_elem_of_singleton in Hin as ->. done.
Qed.

Lemma read_error_sends_buffer_witness :
  readLines ((Close crlf_state).1, (Close crlf_state).2)
  = (set_Lines (Lines (Close crlf_state).1 ++ [buf (mkReader 0 [])])
       (set_reader (Some (mkReader (rd (mkReader 0 [])) []))
          (Close crlf_state).1), (Close crlf_state).2).
Proof.
  apply (read_error_sends_buffer (Close crlf_state).1 (Close crlf_state).2
           (mkReader 0 [])).
  - reflexivity.
  - vm_compute. intros f [= <-]. reflexivity.
  - apply not_elem_of_nil.
Defined.

(** ** What one event can send *)

Arguments env_step : simpl never.

Lemma readLines_grows s :
  ∃ ls, Lines (readLines s).1 = Lines s.1 ++ ls ∧ length ls ≤ 1.
Proof.
  destruct s as [t o]. unfold readLines.
  destruct (reader t) as [r|];
    [|exists []; simpl; rewrite app_nil_r; split; [done|lia]].
  destruct (ReadString nl r o) as [[[ln err] r'] o'].
  destruct (decide _); simpl.
  - exists []. simpl. rewrite app_nil_r. split; [done|lia].
  - eexists [_]. simpl. split; [done|lia].
Qed.

Lemma write_count_cons x k :
  write_count (x :: k) = (if is_write_input x then 1 else 0) + write_count k.
Proof.
  unfold write_count. rewrite filter_cons.
  destruct (is_write_input x); by case_decide.
Qed.

(** X4. While no Create, Rename or Remove event arrives, the event loop
    sends at most one string for each event that carries the Write bit,
    and none for the other inputs, whatever the file holds. *)
Theorem one_string_per_write script : ∀ s,
  Forall (λ x, calm x = true) script →
  ∃ s' ls, watchLoop script s = Running s'
         ∧ Lines s'.1 = Lines s.1 ++ ls
         ∧ length ls ≤ write_count script.
Proof.
  induction script as [|x k IH]; intros [t o] Hcalm.
  - exists (t, o), []. simpl. rewrite app_nil_r. split_and!; [done..|lia].
  - apply Forall_cons in Hcalm as [Hx Hk]. rewrite write_count_cons.
    destruct x as [op|evt rounds|e|]; simpl in *; [| | |done].
    + destruct (IH (t, env_step op o) Hk) as (s' & ls & ? & ? & ?).
      by exists s', ls.
    + unfold onEvent. apply negb_true_iff in Hx. rewrite Hx.
      destruct (is_write evt).
      * destruct (readLines_grows (t, o)) as (l1 & HL1 & Hn1).
        destruct (IH (readLines (t, o)) Hk) as (s' & ls & Hrun & HL & Hn).
        exists s', (l1 ++ ls). rewrite HL, HL1, length_app, <- app_assoc.
        simpl. split_and!; [done..|lia].
      * destruct (IH (t, o) Hk) as (s' & ls & ? & ? & ?). by exists s', ls.
    + destruct (IH (t, o) Hk) as (s' & ls & ? & ? & ?). by exists s', ls.
Qed.

Lemma one_string_per_write_witness :
  ∃ s' ls,
    watchLoop [Env (FsAppend test_log (line_of "a" ++ line_of "b"));
               write_event test_log; WatchErr None] crlf_state = Running s'
    ∧ Lines s'.1 = Lines crlf_state.1 ++ ls
    ∧ length ls ≤ write_count
                    [Env (FsAppend test_log (line_of "a" ++ line_of "b"));
                     write_event test_log; WatchErr None].
Proof.
  apply (one_string_per_write
           [Env (FsAppend test_log (line_of "a" ++ line_of "b"));
            write_event test_log; WatchErr None] crlf_state).
  repeat constructor.
Defined.

Lemma FsAppend_fs name data o i :
  dir o !! name = Some i →
  dir (env_step (FsAppend name data) o) = dir o
  ∧ length (disk (env_step (FsAppend name data) o)) = length (disk o).
Proof.
  intros Hd. unfold env_step. rewrite Hd. simpl. by rewrite length_insert.
Qed.

(** X5. A line written in two appends, with a Write event after each,
    arrives without its first part: the first event takes the bytes that
    have no newline yet from the reader and sends nothing, the second sends
    only what the second append wrote. *)
Theorem split_line_loses_head h i s name d l :
  Reading h i s → unread s = [] →
  dir s.2 !! name = Some i → i < length (disk s.2) →
  nl ∉ d → nl ∉ l →
  ∃ s', watchLoop [Env (FsAppend name d); write_event name;
                   Env (FsAppend name (l ++ [nl])); write_event name] s
        = Running s'
      ∧ Lines s'.1 = Lines s.1 ++ [l]
      ∧ unread s' = [].
Proof.
  destruct s as [t o]. cbn [fst snd]. intros HR Hu Hd Hi Hnd Hnl.
  unfold write_event. cbn [watchLoop fst snd]. rewrite onEvent_write.
  cbn [watchLoop fst snd]. rewrite onEvent_write.
  destruct (env_step_Reading _ _ (FsAppend name d) _ _ HR)
    as (a1 & Ha1 & HR1 & Hu1 & _).
  rewrite (FsAppend_content _ _ _ _ Hd Hi) in Ha1.
  apply app_inv_head in Ha1 as <-. rewrite Hu in Hu1. simpl in Hu1.
  destruct (FsAppend_fs name d o i Hd) as [Hd1 Hk1].
  destruct (readLines_partial _ _ _ HR1) as [HL2 Hu2]; [by rewrite Hu1|].
  destruct (readLines_spec _ _ _ HR1) as (HR2 & Hdisk2 & _).
  destruct (readLines_frame (t, env_step (FsAppend name d) o)) as (Hfs2 & _).
  set (s2 := readLines (t, env_step (FsAppend name d) o)) in *.
  destruct s2 as [t2 o2] eqn:E2. simpl in *.
  assert (Hd2 : dir o2 !! name = Some i).
  { rewrite (dir_fs _ _ Hfs2), Hd1. done. }
  assert (Hi2 : i < length (disk o2)) by (rewrite Hdisk2, Hk1; done).
  destruct (env_step_Reading _ _ (FsAppend name (l ++ [nl])) _ _ HR2)
    as (a3 & Ha3 & HR3 & Hu3 & _).
  rewrite (FsAppend_content _ _ _ _ Hd2 Hi2) in Ha3.
  apply app_inv_head in Ha3 as <-. rewrite Hu2 in Hu3. simpl in Hu3.
  destruct (readLines_line _ _ _ l [] HR3 Hu3 Hnl) as [HL4 Hu4].
  eexists. split; [done|]. rewrite HL4. simpl. by rewrite HL2.
Qed.

Lemma split_line_loses_head_witness :
  ∃ s', watchLoop [Env (FsAppend test_log (B "foo")); write_event test_log;
                   Env (FsAppend test_log (B "bar" ++ [nl]));
                   write_event test_log]
          (state_of (follow test_log (mkConfig 10) [quiet] [] (one_file [])))
        = Running s'
      ∧ Lines s'.1
        = Lines (state_of (follow test_log (mkConfig 10) [quiet] []
                             (one_file []))).1 ++ [B "bar"]
      ∧ unread s' = [].
Proof.
  apply (split_line_loses_head 0 0
           (state_of (follow test_log (mkConfig 10) [quiet] [] (one_file [])))
           test_log (B "foo") (B "bar")).
  - exists [], 0. vm_compute. split_and!; [reflexivity..|lia].
  - reflexivity.
  - reflexivity.
  - vm_compute. lia.
  - apply cut_None. reflexivity.
  - apply cut_None. reflexivity.
Defined.

(** ** Close *)

Lemma HeldAt_nothing_live o :
  HeldAt o None None →
  live_files (files o) = 0 ∧ live_watchers (watchers o) = 0.
Proof.
  intros (_ & _ & Hf & Hw). split.
  - by apply live_closed, sole_None.
  - by apply live_closed, sole_None.
Qed.

(** X6. [Close] closes the file and the watcher the Tail holds and nothing
    else: when these are the only ones live, the process has no open file
    and no live watcher after it; the Tail itself is not changed. *)
Theorem close_releases s :
  sole f_closed (files s.2) (file s.1) →
  sole w_closed (watchers s.2) (watcher s.1) →
  live_files (files (Close s).2) = 0
  ∧ live_watchers (watchers (Close s).2) = 0
  ∧ (Close s).1 = s.1.
Proof.
  destruct s as [t o]. simpl. intros Hf Hw. unfold Close. simpl.
  assert (Hf1 : sole f_closed
                  (files (match file t with
                          | Some h => os_Close h o | None => o end)) None).
  { destruct (file t) as [h|] eqn:Ef; [|done]. unfold os_Close.
    destruct (files o !! h) as [f|] eqn:E; simpl.
    - eapply sole_insert_closed; [done| |done]. congruence.
    - eapply sole_dangling; [done| |done]. congruence. }
  assert (Hw1 : watchers (match file t with
                          | Some h => os_Close h o | None => o end) = watchers o).
  { destruct (file t) as [h|]; [|done]. unfold os_Close.
    by destruct (files o !! h). }
  set (o1 := match file t with Some h => _ | None => _ end) in *.
  assert (Hw2 : sole w_closed
                  (watchers (match watcher t with
                             | Some w => Watcher_Close w o1 | None => o1 end))
                  None).
  { destruct (watcher t) as [w|] eqn:Ew; [|by rewrite Hw1].
    unfold Watcher_Close. rewrite Hw1.
    destruct (watchers o !! w) as [x|] eqn:E; simpl.
    - eapply sole_insert_closed; [done| |done]. congruence.
    - rewrite Hw1. eapply sole_dangling; [done| |done]. congruence. }
  assert (Hf2 : files (match watcher t with
                       | Some w => Watcher_Close w o1 | None => o1 end)
                = files o1).
  { destruct (watcher t) as [w|]; [|done]. unfold Watcher_Close.
    by destruct (watchers o1 !! w). }
  split_and!; [|by apply live_closed, sole_None|done].
  unfold live_files. rewrite Hf2. by apply live_closed, sole_None.
Qed.

Lemma close_releases_witness :
  live_files (files (Close crlf_state).2) = 0
  ∧ live_watchers (watchers (Close crlf_state).2) = 0
  ∧ (Close crlf_state).1 = crlf_state.1.
Proof.
  apply (close_releases crlf_state).
  - intros h x Hl Hx. destruct h as [|[|h]]; vm_compute in Hl;
      [by injection Hl as <-|discriminate..].
  - intros w x Hl Hx. destruct w as [|[|w]]; vm_compute in Hl;
      [by injection Hl as <-|discriminate..].
Defined.

(** ** The follower only reads *)

Lemma Close_fs s : fs_of (Close s).2 = fs_of s.2.
Proof.
  destruct s as [t o]. unfold Close. simpl.
  assert (H1 : fs_of (match file t with
                      | Some h => os_Close h o | None => o end) = fs_of o).
  { destruct (file t); [apply os_Close_fs|done]. }
  destruct (watcher t); [by rewrite Watcher_Close_fs|done].
Qed.

Lemma pollLoop_silent rounds : ∀ nf err s,
  Forall silent_round rounds →
  fs_of (lr_state (pollLoop rounds nf err s)).2 = fs_of s.2.
Proof.
  induction rounds as [|[po pw] rounds IH]; intros nf err [t o] Hs;
    cbn [pollLoop]; [done|].
  apply Forall_cons in Hs as [[Hpo Hpw] Hs]. simpl in Hpo, Hpw. subst po pw.
  cbn [pre_open pre_watch env_steps foldl fst snd].
  pose proof (openFile_frame nf (t, o)) as (Hfs1 & _).
  destruct (openFile nf (t, o)) as [[e1|] [t1 o1]]; simpl in Hfs1;
    cbn [fst snd].
  - destruct (decide _); simpl; [done|]. by rewrite IH.
  - pose proof (watchFile_frame nf (t1, o1)) as (Hfs2 & _).
    destruct (watchFile nf (t1, o1)) as [[e2|] [t2 o2]]; simpl in *.
    + rewrite IH by done. simpl. congruence.
    + congruence.
Qed.

Lemma watchLoop_silent script : ∀ s,
  Forall silent script →
  fs_of (state_of (watchLoop script s)).2 = fs_of s.2.
Proof.
  induction script as [|x k IH]; intros [t o] Hs; cbn [watchLoop]; [done|].
  apply Forall_cons in Hs as [Hx Hk].
  destruct x as [op|evt rounds|e|]; simpl in Hx; [done| |by apply IH|].
  - assert (H1 : fs_of (state_of (onEvent evt rounds (t, o))).2 = fs_of o).
    { unfold onEvent. destruct (disruptive evt).
      - pose proof (pollLoop_silent rounds false None (t, o) Hx) as HL.
        unfold openAndWatch.
        destruct (returned _) as [[e|]|]; simpl; [done| |done].
        destruct (is_write evt); [|done].
        destruct (readLines_frame (lr_state (pollLoop rounds false None (t, o))))
          as (-> & _). done.
      - simpl. destruct (is_write evt); [|done].
        by destruct (readLines_frame (t, o)) as (-> & _). }
    destruct (onEvent evt rounds (t, o)); simpl in *; [|done..].
    rewrite IH by done. done.
  - simpl. apply (Close_fs (t, o)).
Qed.

(** X7. The follower never changes the file system: when no other process
    acts, the directory and the content of every file are after [NewTail]
    and any run of the event loop what they were before. *)
Theorem follower_only_reads name cfg rounds script o :
  Forall silent_round rounds → Forall silent script →
  fs_of (state_of (follow name cfg rounds script o)).2 = fs_of o.
Proof.
  intros Hr Hs. unfold follow, NewTail, openAndWatch.
  pose proof (pollLoop_silent rounds false None
                (mkTail [] None None name None cfg, o) Hr) as H.
  destruct (returned _) as [[e|]|]; simpl; [done| |done].
  rewrite watchLoop_silent by done. done.
Qed.

Lemma follower_only_reads_witness :
  fs_of (state_of (follow test_log (mkConfig 10) [quiet]
                     [write_event test_log; Evt remove_event [quiet; quiet];
                      Closing]
                     (one_file (line_of "a")))).2
  = fs_of (one_file (line_of "a")).
Proof.
  apply (follower_only_reads test_log (mkConfig 10) [quiet]
           [write_event test_log; Evt remove_event [quiet; quiet]; Closing]
           (one_file (line_of "a"))).
  - repeat constructor.
  - repeat constructor.
Defined.

Lemma pollLoop_identity rounds : ∀ nf err s,
  fname (lr_state (pollLoop rounds nf err s)).1 = fname s.1
  ∧ config (lr_state (pollLoop rounds nf err s)).1 = config s.1.
Proof.
  induction rounds as [|r rounds IH]; intros nf err [t o]; cbn [pollLoop];
    [done|].
  pose proof (openFile_frame nf (t, env_steps (pre_open r) o))
    as (_ & _ & Hn1 & Hc1 & _).
  destruct (openFile nf _) as [[e1|] [t1 o1]]; simpl in Hn1, Hc1.
  - destruct (decide _); simpl; [done|].
    destruct (IH (if IsNotExist e1 && bool_decide (nf = false) then true else nf)
                (Some e1) (t1, o1)) as [-> ->]. done.
  - pose proof (watchFile_frame nf (t1, env_steps (pre_watch r) o1))
      as (_ & Hn2 & Hc2 & _).
    destruct (watchFile nf _) as [[e2|] [t2 o2]]; simpl in *.
    + destruct (IH nf (Some e2) (t2, o2)) as [-> ->]. simpl. split; congruence.
    + split; congruence.
Qed.

Lemma watchLoop_identity script : ∀ s,
  fname (state_of (watchLoop script s)).1 = fname s.1
  ∧ config (state_of (watchLoop script s)).1 = config s.1.
Proof.
  induction script as [|x k IH]; intros [t o]; cbn [watchLoop]; [done|].
  destruct x as [op|evt rounds|e|];
    [apply (IH (t, env_step op o))| |apply (IH (t, o))|done].
  assert (H1 : fname (state_of (onEvent evt rounds (t, o))).1 = fname t
             ∧ config (state_of (onEvent evt rounds (t, o))).1 = config t).
  { unfold onEvent. destruct (disruptive evt).
    - pose proof (pollLoop_identity rounds false None (t, o)) as HL.
      unfold openAndWatch.
      destruct (returned _) as [[e|]|]; simpl; [done| |done].
      destruct (is_write evt); [|done].
      destruct (readLines_frame (lr_state (pollLoop rounds false None (t, o))))
        as (_ & _ & -> & -> & _). done.
    - simpl. destruct (is_write evt); [|done].
      by destruct (readLines_frame (t, o)) as (_ & _ & -> & -> & _). }
  destruct (onEvent evt rounds (t, o)); simpl in *; [|done..].
  destruct (IH s) as [-> ->]. done.
Qed.

(** X8. The path and the configuration given to [NewTail] are those of the
    Tail ever after: no method assigns [fname] or [config]. *)
Theorem path_and_config_kept name cfg rounds script o :
  fname (state_of (follow name cfg rounds script o)).1 = name
  ∧ config (state_of (follow name cfg rounds script o)).1 = cfg.
Proof.
  unfold follow, NewTail, openAndWatch.
  pose proof (pollLoop_identity rounds false None
                (mkTail [] None None name None cfg, o)) as H.
  destruct (returned _) as [[e|]|]; simpl; [done| |done].
  destruct (watchLoop_identity script
              (lr_state (pollLoop rounds false None
                           (mkTail [] None None name None cfg, o))))
    as [-> ->]. done.
Qed.

(** ** What a successful openAndWatch leaves *)

Lemma env_steps_Reading h i ops : ∀ t o,
  Reading h i (t, o) → Reading h i (t, env_steps ops o).
Proof.
  unfold env_steps. induction ops as [|op ops IH]; intros t o HR; simpl; [done|].
  apply IH. by destruct (env_step_Reading h i op t o HR) as (_ & _ & ? & _).
Qed.

Lemma Watcher_Close_files w o : files (Watcher_Close w o) = files o.
Proof. unfold Watcher_Close. by destruct (watchers o !! w). Qed.

(** A successful [watchFile], up to the first action of its goroutine. *)
Lemma watchFile_mid b t o s' :
  watchFile b (t, o) = (None, s') →
  ∃ w o3,
    s' = (if b then readLines (set_watcher (Some w) t, o3)
          else (set_watcher (Some w) t, o3))
    ∧ files o3 = files o ∧ fs_of o3 = fs_of o
    ∧ watchers o3 !! w = Some (mkWatcher [fname t] false).
Proof.
  unfold watchFile.
  assert (Hf1 : files (match watcher t with
                       | Some w => Watcher_Close w o | None => o end) = files o).
  { destruct (watcher t); [apply Watcher_Close_files|done]. }
  assert (Hfs1 : fs_of (match watcher t with
                        | Some w => Watcher_Close w o | None => o end) = fs_of o).
  { destruct (watcher t); [apply Watcher_Close_fs|done]. }
  set (o1 := match watcher t with Some w => _ | None => _ end) in *.
  unfold NewWatcher. case_decide; [done|]. simpl.
  unfold Watcher_Add. simpl. rewrite list_lookup_middle by done. simpl.
  rewrite (dir_fs _ _ Hfs1).
  destruct (dir o !! fname t) as [i|]; [|done].
  intros [= <-]. eexists _, _. split; [done|]. simpl. split_and!; [done..|].
  apply list_lookup_insert_eq. rewrite length_app. simpl. lia.
Qed.

Lemma Reading_same h i t o t' o' :
  Reading h i (t, o) → reader t' = reader t → files o' = files o →
  fs_of o' = fs_of o →
  Reading h i (t', o') ∧ unread (t', o') = unread (t, o).
Proof.
  intros (b & n & Hr & Hf & Hn) Hr' Hf' Hfs. simpl in *. split.
  - exists b, n. simpl. rewrite Hr', Hf', (content_fs _ _ _ Hfs). done.
  - unfold unread. simpl. rewrite Hr', Hf', Hr. simpl. rewrite Hf. simpl.
    by rewrite (content_fs _ _ _ Hfs).
Qed.

Lemma Watching_readLines s : Watching s → Watching (readLines s).
Proof.
  intros (h & i & w & x & Hf & HR & Hw & Hx & Hc & Hin).
  destruct (readLines_spec h i s HR) as (HR' & _).
  destruct (readLines_frame s) as (_ & Hws & Hn & _ & Hf' & Hw').
  exists h, i, w, x. rewrite Hf', Hw', Hws, Hn. done.
Qed.

Lemma watchFile_Watching b t o s' h i :
  Reading h i (t, o) → file t = Some h →
  watchFile b (t, o) = (None, s') → Watching s'.
Proof.
  intros HR Hf H. apply watchFile_mid in H as (w & o3 & -> & Hfl & Hfs & Hw).
  assert (Hm : Watching (set_watcher (Some w) t, o3)).
  { exists h, i, w, (mkWatcher [fname t] false).
    split_and!; simpl; [done| |done..|by left].
    by apply (Reading_same h i t o). }
  destruct b; [by apply Watching_readLines|done].
Qed.

Lemma pollLoop_success rounds : ∀ nf err s,
  lr_signal (pollLoop rounds nf err s) = ByLoop None →
  Watching (lr_state (pollLoop rounds nf err s)).
Proof.
  induction rounds as [|r rounds IH]; intros nf err [t o]; cbn [pollLoop].
  - by destruct (decide _).
  - cbn [fst snd]. destruct (openFile nf _) as [[e1|] [t1 o1]] eqn:E1.
    + destruct (decide _); simpl; [done|]. apply IH.
    + cbn [fst snd].
      destruct (watchFile nf _) as [[e2|] [t2 o2]] eqn:E2; simpl; [apply IH|].
      intros _. apply openFile_installs in E1 as (i & _ & Hf & HR & _).
      simpl in Hf. eapply watchFile_Watching; [|done..].
      by apply env_steps_Reading.
Qed.

(** X10. When the polling loop of [openAndWatch] ends by sending nil, at
    startup or on a re-open, the Tail holds an open file with a reader on
    it and a live watcher that watches its path. Without timeout no other
    goroutine sends, so this holds whenever [openAndWatch] returns nil. *)
Theorem success_means_watching rounds s :
  (lr_signal (openAndWatch rounds s) = ByLoop None →
   Watching (lr_state (openAndWatch rounds s)))
  ∧ (Timeout (config s.1) = 0%Z →
     returned (lr_signal (openAndWatch rounds s)) = Some None →
     Watching (lr_state (openAndWatch rounds s))).
Proof.
  unfold openAndWatch. split; [apply pollLoop_success|].
  intros HT H.
  destruct (pollLoop_no_timeout rounds false None s HT) as [Hno _].
  destruct (lr_signal (pollLoop rounds false None s)) as [e|e|] eqn:E;
    simpl in H; [| |done]; injection H as ->.
  - by apply pollLoop_success.
  - by destruct (Hno None).
Qed.

Lemma success_means_watching_witness :
  Watching (lr_state (openAndWatch [quiet; appears test_log (line_of "a")]
                        (fresh_tail test_log 10, no_file))).
Proof.
  apply (proj1 (success_means_watching [quiet; appears test_log (line_of "a")]
                  (fresh_tail test_log 10, no_file))).
  vm_compute. reflexivity.
Defined.

(** ** Rounds of the polling loop, one by one *)

Lemma openFile_missing b s :
  Held s → dir s.2 !! fname s.1 = None → 0 < max_files s.2 →
  (openFile b s).1 = Some ENOENT.
Proof.
  destruct s as [t o]. simpl. intros H Hd Hm. unfold openFile.
  pose proof (HeldAt_close_held t o H) as (_ & _ & H1 & _).
  apply sole_None, live_closed in H1.
  assert (Hfs : fs_of (match file t with
                       | Some h => os_Close h o | None => o end) = fs_of o).
  { destruct (file t); [apply os_Close_fs|done]. }
  set (o1 := match file t with Some h => _ | None => _ end) in *.
  unfold os_Open. rewrite (dir_fs _ _ Hfs), Hd.
  rewrite decide_False; [done|].
  unfold live_files. rewrite H1. unfold fs_of in Hfs.
  injection Hfs as _ _ -> _. lia.
Qed.

Lemma watchFile_succeeds b s i :
  Held s → dir s.2 !! fname s.1 = Some i → 0 < max_watchers s.2 →
  (watchFile b s).1 = None.
Proof.
  destruct s as [t o]. simpl. intros H Hd Hm. unfold watchFile.
  pose proof (HeldAt_close_watcher t o _ H) as (_ & _ & _ & H1).
  apply sole_None, live_closed in H1.
  assert (Hfs : fs_of (match watcher t with
                       | Some w => Watcher_Close w o | None => o end) = fs_of o).
  { destruct (watcher t); [apply Watcher_Close_fs|done]. }
  set (o1 := match watcher t with Some w => _ | None => _ end) in *.
  unfold NewWatcher. rewrite decide_False.
  - simpl. unfold Watcher_Add. simpl. rewrite list_lookup_middle by done.
    simpl. by rewrite (dir_fs _ _ Hfs), Hd.
  - unfold live_watchers. rewrite H1. unfold fs_of in Hfs.
    injection Hfs as _ _ _ ->. lia.
Qed.

Lemma watchFile_failed_files b s e s' :
  watchFile b s = (Some e, s') →
  files s'.2 = files s.2 ∧ file s'.1 = file s.1.
Proof.
  destruct s as [t o]. unfold watchFile.
  assert (Hf1 : files (match watcher t with
                       | Some w => Watcher_Close w o | None => o end) = files o).
  { destruct (watcher t); [apply Watcher_Close_files|done]. }
  set (o1 := match watcher t with Some w => _ | None => _ end) in *.
  unfold NewWatcher. case_decide; simpl.
  { by intros [= _ <-]. }
  unfold Watcher_Add. simpl. rewrite list_lookup_middle by done. simpl.
  destruct (dir o1 !! fname t); [done|]. by intros [= _ <-].
Qed.

(** On a path that does not exist [openFile] leaves the Tail without a
    file and the process without an open one. *)
Lemma openFile_missing_nothing_open b s :
  Held s → dir s.2 !! fname s.1 = None → 0 < max_files s.2 →
  file (openFile b s).2.1 = None
  ∧ live_files (files (openFile b s).2.2) = 0
  ∧ watchers (openFile b s).2.2 = watchers s.2.
Proof.
  destruct s as [t o]. simpl. intros H Hd Hm.
  pose proof (HeldAt_close_held t o H) as (_ & _ & H1 & _).
  apply sole_None, live_closed in H1.
  assert (Hfs : fs_of (match file t with
                       | Some h => os_Close h o | None => o end) = fs_of o).
  { destruct (file t); [apply os_Close_fs|done]. }
  assert (Hw : watchers (match file t with
                         | Some h => os_Close h o | None => o end) = watchers o).
  { destruct (file t) as [h|]; [|done]. unfold os_Close.
    by destruct (files o !! h). }
  assert (E : openFile b (t, o)
              = (Some ENOENT,
                 (set_file None t,
                  match file t with Some h => os_Close h o | None => o end))).
  { unfold openFile.
    set (o1 := match file t with Some h => _ | None => _ end) in *.
    unfold os_Open. rewrite (dir_fs _ _ Hfs), Hd.
    rewrite decide_False; [done|].
    unfold live_files. rewrite H1. unfold fs_of in Hfs.
    injection Hfs as _ _ -> _. lia. }
  rewrite E. by split_and!.
Qed.

(** A round on a path that does not exist, with a timeout: the flag is set
    and the loop goes on. *)
Lemma round_missing rounds nf err s :
  Held s → Timeout (config s.1) ≠ 0%Z →
  dir s.2 !! fname s.1 = None → 0 < max_files s.2 →
  ∃ s1, pollLoop (quiet :: rounds) nf err s
        = cons_attempt (mkAttempt nf (Some ENOENT) None None)
            (pollLoop rounds true (Some ENOENT) s1)
      ∧ Held s1 ∧ fs_of s1.2 = fs_of s.2
      ∧ fname s1.1 = fname s.1 ∧ config s1.1 = config s.1
      ∧ Lines s1.1 = Lines s.1
      ∧ live_files (files s1.2) = 0 ∧ watchers s1.2 = watchers s.2.
Proof.
  destruct s as [t o]. simpl. intros H HT Hd Hm. cbn [pollLoop].
  cbn [quiet pre_open pre_watch env_steps foldl fst snd].
  pose proof (openFile_missing nf (t, o) H Hd Hm) as E1.
  pose proof (Held_openFile nf (t, o) H) as H1.
  pose proof (openFile_frame nf (t, o)) as (Hfs1 & _ & Hn1 & Hc1 & HL1 & _).
  pose proof (openFile_missing_nothing_open nf (t, o) H Hd Hm) as (_ & Hlv & Hws).
  destruct (openFile nf (t, o)) as [e1 [t1 o1]]. simpl in *. subst e1.
  rewrite decide_False by congruence.
  exists (t1, o1). split_and!; [|done..]. by destruct nf.
Qed.


Lemma rounds_missing k : ∀ rounds nf err s,
  Held s → Timeout (config s.1) ≠ 0%Z →
  dir s.2 !! fname s.1 = None → 0 < max_files s.2 →
  ∃ s1, lr_signal (pollLoop (repeat quiet (S k) ++ rounds) nf err s)
        = lr_signal (pollLoop rounds true (Some ENOENT) s1)
      ∧ lr_state (pollLoop (repeat quiet (S k) ++ rounds) nf err s)
        = lr_state (pollLoop rounds true (Some ENOENT) s1)
      ∧ Held s1 ∧ fs_of s1.2 = fs_of s.2
      ∧ fname s1.1 = fname s.1 ∧ config s1.1 = config s.1
      ∧ Lines s1.1 = Lines s.1
      ∧ live_files (files s1.2) = 0 ∧ watchers s1.2 = watchers s.2.
Proof.
  induction k as [|k IH]; intros rounds nf err s H HT Hd Hm.
  - change (repeat quiet 1 ++ rounds) with (quiet :: rounds).
    destruct (round_missing rounds nf err s H HT Hd Hm)
      as (s1 & -> & H1 & Hfs1 & Hn1 & Hc1 & HL1 & Hlv1 & Hws1).
    cbn [cons_attempt lr_signal lr_state]. by exists s1.
  - change (repeat quiet (S (S k)) ++ rounds)
      with (quiet :: (repeat quiet (S k) ++ rounds)).
    destruct (round_missing (repeat quiet (S k) ++ rounds) nf err s H HT Hd Hm)
      as (s1 & -> & H1 & Hfs1 & Hn1 & Hc1 & HL1 & Hlv1 & Hws1).
    cbn [cons_attempt lr_signal lr_state].
    unfold fs_of in Hfs1. injection Hfs1 as Hd1 Hk1 Hmf1 Hmw1.
    destruct (IH rounds true (Some ENOENT) s1)
      as (s2 & -> & -> & ? & ? & ? & ? & ? & ? & ?); [done|congruence..|].
    exists s2. unfold fs_of in *. split_and!; [done..|congruence| | | |done|];
      congruence.
Qed.

(** A round before which the file is created, the flag being set. *)
Lemma round_created rest err s l after :
  Held s → 0 < max_files s.2 → 0 < max_watchers s.2 → nl ∉ l →
  ∃ h i,
    lr_signal (pollLoop (appears (fname s.1) (l ++ nl :: after) :: rest)
                 true err s) = ByLoop None
    ∧ Reading h i (lr_state (pollLoop (appears (fname s.1) (l ++ nl :: after)
                                         :: rest) true err s))
    ∧ Lines (lr_state (pollLoop (appears (fname s.1) (l ++ nl :: after) :: rest)
                         true err s)).1 = Lines s.1 ++ [l]
    ∧ unread (lr_state (pollLoop (appears (fname s.1) (l ++ nl :: after)
                                    :: rest) true err s)) = after
    ∧ Held (lr_state (pollLoop (appears (fname s.1) (l ++ nl :: after) :: rest)
                        true err s)).
Proof.
  destruct s as [t o]. simpl. intros H Hmf Hmw Hl. cbn [pollLoop].
  cbn [appears pre_open pre_watch env_steps foldl fst snd].
  set (c := l ++ nl :: after).
  set (o' := env_step (FsCreate (fname t) c) o).
  assert (Hd' : dir o' !! fname t = Some (length (disk o))).
  { subst o'. unfold env_step. simpl. apply lookup_insert_eq. }
  assert (Hc' : content (length (disk o)) o' = c).
  { subst o'. unfold env_step, content. simpl.
    by rewrite list_lookup_middle. }
  assert (H' : Held (t, o')) by (by apply HeldAt_env).
  pose proof (openFile_succeeds true (t, o') _ H' Hd' Hmf) as E1.
  pose proof (Held_openFile true (t, o') H') as H1.
  pose proof (openFile_frame true (t, o')) as (Hfs1 & _ & Hn1 & _ & HL1 & _).
  destruct (openFile true (t, o')) as [e1 [t1 o1]] eqn:Eo. simpl in *. subst e1.
  apply openFile_installs in Eo as (i & Hi & Hf1 & HR1 & _ & Hu1).
  simpl in *. assert (i = length (disk o)) as -> by congruence.
  rewrite Hc' in Hu1.
  assert (Hd1 : dir o1 !! fname t1 = Some (length (disk o))).
  { rewrite Hn1, (dir_fs _ _ Hfs1). done. }
  assert (Hmw1 : 0 < max_watchers o1).
  { unfold fs_of in Hfs1. injection Hfs1 as _ _ _ ->. done. }
  pose proof (watchFile_succeeds true (t1, o1) _ H1 Hd1 Hmw1) as E2.
  pose proof (Held_watchFile true (t1, o1) H1) as H2.
  destruct (watchFile true (t1, o1)) as [e2 s3] eqn:Ew. simpl in *. subst e2.
  apply watchFile_mid in Ew as (w & o3 & -> & Hfl & Hfs3 & Hw).
  destruct (Reading_same _ _ t1 o1 (set_watcher (Some w) t1) o3 HR1)
    as [HRm Hum]; [done..|].
  rewrite Hu1 in Hum.
  destruct (readLines_line _ _ _ l after HRm Hum Hl) as [HL Hu].
  destruct (readLines_spec _ _ _ HRm) as (HR3 & _).
  exists (length (files o')), (length (disk o)). simpl.
  split_and!; [done..| |done|done]. rewrite HL. simpl. by rewrite HL1.
Qed.

(** A round on a path that exists, the flag not being set. *)
Lemma round_existing rest err s i :
  Held s → dir s.2 !! fname s.1 = Some i →
  0 < max_files s.2 → 0 < max_watchers s.2 →
  lr_signal (pollLoop (quiet :: rest) false err s) = ByLoop None
  ∧ Reading (length (files s.2)) i (lr_state (pollLoop (quiet :: rest) false err s))
  ∧ Lines (lr_state (pollLoop (quiet :: rest) false err s)).1 = Lines s.1
  ∧ unread (lr_state (pollLoop (quiet :: rest) false err s)) = []
  ∧ Held (lr_state (pollLoop (quiet :: rest) false err s)).
Proof.
  destruct s as [t o]. simpl. intros H Hd Hmf Hmw. cbn [pollLoop].
  cbn [quiet pre_open pre_watch env_steps foldl fst snd].
  pose proof (openFile_succeeds false (t, o) _ H Hd Hmf) as E1.
  pose proof (Held_openFile false (t, o) H) as H1.
  pose proof (openFile_frame false (t, o)) as (Hfs1 & _ & Hn1 & _ & HL1 & _).
  destruct (openFile false (t, o)) as [e1 [t1 o1]] eqn:Eo. simpl in *. subst e1.
  apply openFile_installs in Eo as (i' & Hi & Hf1 & HR1 & _ & Hu1).
  simpl in *. assert (i' = i) as -> by congruence.
  assert (Hd1 : dir o1 !! fname t1 = Some i).
  { rewrite Hn1, (dir_fs _ _ Hfs1). done. }
  assert (Hmw1 : 0 < max_watchers o1).
  { unfold fs_of in Hfs1. injection Hfs1 as _ _ _ ->. done. }
  pose proof (watchFile_succeeds false (t1, o1) _ H1 Hd1 Hmw1) as E2.
  pose proof (Held_watchFile false (t1, o1) H1) as H2.
  destruct (watchFile false (t1, o1)) as [e2 s3] eqn:Ew. simpl in *. subst e2.
  apply watchFile_mid in Ew as (w & o3 & -> & Hfl & Hfs3 & Hw).
  destruct (Reading_same _ _ t1 o1 (set_watcher (Some w) t1) o3 HR1)
    as [HRm Hum]; [done..|].
  simpl. split_and!; [done..| |done]. by rewrite Hum.
Qed.

(** ** Files that appear, disappear and are replaced *)

(** X11. A file that appears while [NewTail] is polling, after at least one
    attempt found the path missing, is read from its start: its first line
    is sent at once, and what follows it is unread, not skipped. *)
Theorem new_file_read_from_start name T d dk nf nw k l after :
  T ≠ 0%Z → d !! name = None → 0 < nf → 0 < nw → nl ∉ l →
  ∃ s, NewTail name (mkConfig T)
         (repeat quiet (S k) ++ [appears name (l ++ nl :: after)])
         (boot d dk nf nw) = Tailing s
     ∧ Lines s.1 = [l]
     ∧ unread s = after.
Proof.
  intros HT Hd Hnf Hnw Hl. unfold NewTail, openAndWatch.
  destruct (rounds_missing k [appears name (l ++ nl :: after)] false None
              (mkTail [] None None name None (mkConfig T), boot d dk nf nw))
    as (s1 & -> & -> & H1 & Hfs1 & Hn1 & Hc1 & HL1 & _ & _);
    [apply Held_boot|done..|].
  unfold fs_of in Hfs1. injection Hfs1 as Hd1 Hk1 Hmf1 Hmw1.
  change (fname s1.1 = name) in Hn1. change (Lines s1.1 = []) in HL1.
  change (max_files s1.2 = nf) in Hmf1. change (max_watchers s1.2 = nw) in Hmw1.
  destruct (round_created [] (Some ENOENT) s1 l after)
    as (h & i & Hsig & HR & HL & Hu & _); [done|lia..|done|].
  rewrite Hn1 in Hsig, HL, Hu. rewrite Hsig. cbn [returned].
  eexists. split; [reflexivity|]. split; [|exact Hu]. by rewrite HL, HL1.
Qed.

Lemma new_file_read_from_start_witness :
  ∃ s, NewTail test_log (mkConfig 10)
         (repeat quiet 2 ++ [appears test_log (B "a" ++ nl :: line_of "b")])
         (boot ∅ [] 8 8) = Tailing s
     ∧ Lines s.1 = [B "a"]
     ∧ unread s = line_of "b".
Proof.
  apply (new_file_read_from_start test_log 10 ∅ [] 8 8 1 (B "a") (line_of "b")).
  - discriminate.
  - reflexivity.
  - lia.
  - lia.
  - apply cut_None. reflexivity.
Defined.

(** X12. Rotation with a timeout. The path has gone when a Create, Rename
    or Remove event arrives, and a new file is created there while the
    re-open is polling: the re-open succeeds, the first line of the new
    file is sent, what follows it is unread, and the file and watcher held
    before are closed. *)
Theorem rotation_delivers_first_line evt s k l after :
  Held s → Timeout (config s.1) ≠ 0%Z →
  dir s.2 !! fname s.1 = None → 0 < max_files s.2 → 0 < max_watchers s.2 →
  disruptive evt = true → is_write evt = false → nl ∉ l →
  ∃ s', onEvent evt
          (repeat quiet (S k) ++ [appears (fname s.1) (l ++ nl :: after)]) s
        = Running s'
      ∧ Lines s'.1 = Lines s.1 ++ [l]
      ∧ unread s' = after
      ∧ Held s'.
Proof.
  intros H HT Hd Hmf Hmw Hev Hwr Hl. unfold onEvent, openAndWatch.
  rewrite Hev, Hwr.
  destruct (rounds_missing k [appears (fname s.1) (l ++ nl :: after)]
              false None s)
    as (s1 & -> & -> & H1 & Hfs1 & Hn1 & Hc1 & HL1 & _ & _); [done..|].
  unfold fs_of in Hfs1. injection Hfs1 as Hd1 Hk1 Hmf1 Hmw1.
  destruct (round_created [] (Some ENOENT) s1 l after)
    as (h & i & Hsig & HR & HL & Hu & H2); [done|lia..|done|].
  rewrite Hn1 in Hsig, HL, Hu, H2. rewrite Hsig. cbn [returned].
  eexists. split; [reflexivity|]. split_and!; [|exact Hu|exact H2].
  by rewrite HL, HL1.
Qed.

Lemma rotation_delivers_first_line_witness :
  ∃ s', onEvent rename_event
          (repeat quiet 1
             ++ [appears (fname renamed_state.1) (B "foobar" ++ nl :: [])])
          renamed_state
        = Running s'
      ∧ Lines s'.1 = Lines renamed_state.1 ++ [B "foobar"]
      ∧ unread s' = []
      ∧ Held s'.
Proof.
  apply (rotation_delivers_first_line rename_event renamed_state 0
           (B "foobar") []).
  - exact (Held_follow test_log (mkConfig 10) [quiet]
             [Env (FsRename test_log "test.log_new")]
             {[ test_log := 0 ]} [line_of "old"] 8 8).
  - discriminate.
  - reflexivity.
  - vm_compute. lia.
  - vm_compute. lia.
  - reflexivity.
  - reflexivity.
  - apply cut_None. reflexivity.
Defined.

(** X13. A re-open that finds the path present at its first attempt does
    not set the flag: the new file is opened at its end, so nothing of
    what it already holds is sent, and what the previous reader had not
    returned is dropped with it. *)
Theorem reopen_on_existing_skips evt rest s i :
  Held s → dir s.2 !! fname s.1 = Some i →
  0 < max_files s.2 → 0 < max_watchers s.2 →
  disruptive evt = true →
  ∃ s', onEvent evt (quiet :: rest) s = Running s'
      ∧ Reading (length (files s.2)) i s'
      ∧ Lines s'.1 = Lines s.1
      ∧ unread s' = [].
Proof.
  intros H Hd Hmf Hmw Hev. unfold onEvent, openAndWatch. rewrite Hev.
  destruct (round_existing rest None s i H Hd Hmf Hmw)
    as (Hsig & HR & HL & Hu & _).
  rewrite Hsig. cbn [returned]. eexists. split; [reflexivity|].
  destruct (is_write evt); [|done].
  destruct (readLines_spec _ _ _ HR) as (HR' & _ & Hspec).
  rewrite Hu in Hspec. cbn [cut] in Hspec. destruct Hspec as [HL' Hu'].
  split_and!; [done| |done]. by rewrite HL'.
Qed.

Lemma reopen_on_existing_skips_witness :
  ∃ s', onEvent create_event (quiet :: []) replaced_state = Running s'
      ∧ Reading (length (files replaced_state.2)) 1 s'
      ∧ Lines s'.1 = Lines replaced_state.1
      ∧ unread s' = [].
Proof.
  apply (reopen_on_existing_skips create_event [] replaced_state 1).
  - exact (Held_follow test_log (mkConfig 10) [quiet]
             [Env (FsCreate test_log (line_of "new"))]
             {[ test_log := 0 ]} [line_of "old"] 8 8).
  - reflexivity.
  - vm_compute. lia.
  - vm_compute. lia.
  - reflexivity.
Defined.

(** ** A watch step that fails *)

(** X14. When [openFile] has succeeded and the [watchFile] that follows
    fails, nothing closes the file just opened: it stays open and held by
    the Tail, and nothing is sent. *)
Theorem failed_watch_keeps_file_open b s s1 e s2 :
  openFile b s = (None, s1) → watchFile b s1 = (Some e, s2) →
  FileOpen s2 ∧ file s2.1 = file s1.1 ∧ Lines s2.1 = Lines s.1.
Proof.
  destruct s as [t o]. intros Ho Hw.
  pose proof (openFile_config _ _ _ _ Ho) as [_ HL1].
  apply openFile_ok in Ho as (i & _ & Hf & _ & Hl).
  pose proof (watchFile_failed_Lines _ _ _ _ Hw) as HL2.
  apply watchFile_failed_files in Hw as [Hfl Hfi].
  split_and!; [|done|congruence].
  eexists _, _. rewrite Hfi, Hfl. done.
Qed.

Lemma failed_watch_keeps_file_open_witness :
  FileOpen (watchFile false
              (openFile false (fresh_tail test_log 10, no_inotify)).2).2
  ∧ file (watchFile false
            (openFile false (fresh_tail test_log 10, no_inotify)).2).2.1
    = file (openFile false (fresh_tail test_log 10, no_inotify)).2.1
  ∧ Lines (watchFile false
             (openFile false (fresh_tail test_log 10, no_inotify)).2).2.1
    = Lines (fresh_tail test_log 10, no_inotify).1.
Proof.
  apply (failed_watch_keeps_file_open false
           (fresh_tail test_log 10, no_inotify) _ EMFILE).
  - vm_compute. reflexivity.
  - vm_compute. reflexivity.
Defined.

(** ** A path that does not exist *)

(** X15. Without timeout, on a path that does not exist, [NewTail] returns
    the not-found error of its first attempt; no file is open and no
    watcher was created when it returns. *)
Theorem missing_path_fails_at_once name rest d dk nf nw :
  d !! name = None → 0 < nf →
  ∃ s, NewTail name (mkConfig 0) (quiet :: rest) (boot d dk nf nw)
       = Failed ENOENT s
     ∧ length (lr_trace (openAndWatch (quiet :: rest)
                           (fresh_tail name 0, boot d dk nf nw))) = 1
     ∧ live_files (files s.2) = 0
     ∧ watchers s.2 = [].
Proof.
  intros Hd Hnf. unfold NewTail, openAndWatch, fresh_tail. cbn [pollLoop].
  cbn [quiet pre_open pre_watch env_steps foldl fst snd].
  set (s0 := (mkTail [] None None name None (mkConfig 0), boot d dk nf nw)).
  assert (H0 : Held s0) by apply Held_boot.
  pose proof (openFile_missing false s0 H0 Hd Hnf) as E1.
  pose proof (openFile_missing_nothing_open false s0 H0 Hd Hnf) as (_ & Hlv & Hws).
  pose proof (openFile_frame false s0) as (_ & _ & _ & Hc1 & _).
  destruct (openFile false s0) as [e1 [t1 o1]]. simpl in *. subst e1.
  rewrite decide_True by (by rewrite Hc1). simpl.
  eexists. by split_and!.
Qed.

Lemma missing_path_fails_at_once_witness :
  ∃ s, NewTail test_log (mkConfig 0) (quiet :: [appears test_log []])
         (boot ∅ [] 8 8)
       = Failed ENOENT s
     ∧ length (lr_trace (openAndWatch (quiet :: [appears test_log []])
                           (fresh_tail test_log 0, boot ∅ [] 8 8))) = 1
     ∧ live_files (files s.2) = 0
     ∧ watchers s.2 = [].
Proof.
  apply (missing_path_fails_at_once test_log [appears test_log []] ∅ [] 8 8).
  - reflexivity.
  - lia.
Defined.

(** X16. With a timeout, on a path that stays missing, [NewTail] polls
    until the timer fires and then returns the not-found error; no file is
    open and no watcher was created when it returns. *)
Theorem missing_path_times_out name T k d dk nf nw :
  T ≠ 0%Z → d !! name = None → 0 < nf →
  ∃ s, NewTail name (mkConfig T) (repeat quiet (S k)) (boot d dk nf nw)
       = Failed ENOENT s
     ∧ live_files (files s.2) = 0
     ∧ watchers s.2 = [].
Proof.
  intros HT Hd Hnf. unfold NewTail, openAndWatch.
  rewrite <- (app_nil_r (repeat quiet (S k))).
  destruct (rounds_missing k [] false None
              (mkTail [] None None name None (mkConfig T), boot d dk nf nw))
    as (s1 & -> & -> & H1 & Hfs1 & Hn1 & Hc1 & HL1 & Hlv1 & Hws1);
    [apply Held_boot|done..|].
  cbn [pollLoop]. rewrite decide_False by (by rewrite Hc1). simpl.
  eexists. by split_and!.
Qed.

Lemma missing_path_times_out_witness :
  ∃ s, NewTail test_log (mkConfig 10) (repeat quiet 3) (boot ∅ [] 8 8)
       = Failed ENOENT s
     ∧ live_files (files s.2) = 0
     ∧ watchers s.2 = [].
Proof.
  apply (missing_path_times_out test_log 10 2 ∅ [] 8 8).
  - discriminate.
  - reflexivity.
  - lia.
Defined.

(** ** Events of other kinds *)

(** X17. An event that carries none of the Create, Write, Remove and
    Rename bits, such as a Chmod, changes nothing: no re-open, no read. *)
Theorem other_events_ignored evt rounds s :
  N.land (fsnotify.Op evt) 15 = 0%N →
  onEvent evt rounds s = Running s.
Proof.
  intros H. unfold onEvent, disruptive, is_write.
  assert (H1 : N.land (fsnotify.Op evt)
                 (N.lor fsnotify.Create (N.lor fsnotify.Rename fsnotify.Remove))
               = 0%N).
  { change (N.lor fsnotify.Create (N.lor fsnotify.Rename fsnotify.Remove))
      with (N.land 15 13).
    by rewrite N.land_assoc, H. }
  assert (H2 : N.land (fsnotify.Op evt) fsnotify.Write = 0%N).
  { change fsnotify.Write with (N.land 15 2).
    by rewrite N.land_assoc, H. }
  rewrite H1, H2. done.
Qed.

Lemma other_events_ignored_witness :
  onEvent (fsnotify.mkEvent test_log fsnotify.Chmod) [quiet] crlf_state
  = Running crlf_state.
Proof.
  apply (other_events_ignored (fsnotify.mkEvent test_log fsnotify.Chmod)
           [quiet] crlf_state).
  reflexivity.
Defined.
